(** * invenio-previewer: files inside ZIP archives

    A shallow embedding of [invenio_previewer/api.py] (the preview-file
    factory, [PreviewFile], [ZipExtractedFile], [ZipFileStream]) and of the
    download and preview views of [invenio_previewer/views.py], with the
    properties the design document states about them and further properties
    read off the code.

    Python values are modelled as follows.
    - [str] is [string]; a character is a code point below 256 (ASCII and
      Latin-1), and [lower] is [str.lower] on these: it folds [A]-[Z] and the
      capital letters U+00C0-U+00DE (all but the sign U+00D7).  Text with
      higher code points is outside the model; for [.endswith(".zip")] this
      loses nothing, since no other character lower-cases to one of [.],
      [z], [i], [p].
    - Exceptions are values of [exn]; a computation returns [Ok v] or
      [Raise e] together with the state it leaves behind.
    - The storage layer, [zipfile], [mimetypes] and [flask]/[werkzeug] are
      outside the repository.  The stored object is a [Blob] that does not
      change during a request; every [open()] of it yields a fresh handle
      number, and the calls made on handles, archives and member streams are
      recorded in the [log] of the [World].  [Response(...)] refuses a header
      value with a newline in it, as [werkzeug] does.
    - Objects that the code mutates ([ZipExtractedFile], [ZipFileStream]) are
      threaded explicitly through the state of the monad [M]. *)

From Stdlib Require Import ZArith String Ascii List Bool Lia DecimalString.
From stdpp Require Import base option gmap strings.

Local Open Scope string_scope.
Local Open Scope Z_scope.

(** ** Python strings *)

Module Py.

Definition lower_char (c : ascii) : ascii :=
  let n := nat_of_ascii c in
  if ((65 <=? n) && (n <=? 90))%nat then ascii_of_nat (n + 32)
  else if ((192 <=? n) && (n <=? 222) && negb (n =? 215))%nat
       then ascii_of_nat (n + 32)
       else c.

Fixpoint lower (s : string) : string :=
  match s with
  | EmptyString => EmptyString
  | String c r => String (lower_char c) (lower r)
  end.

(** [s.endswith(suffix)] *)
Definition endswith (s suffix : string) : bool :=
  let n := String.length s in
  let k := String.length suffix in
  (k <=? n)%nat && String.eqb (substring (n - k) k s) suffix.

(** [s.rfind(c)] for a one-character needle: the highest index, or -1. *)
Fixpoint rfind_from (c : ascii) (s : string) (i acc : Z) : Z :=
  match s with
  | EmptyString => acc
  | String d r => rfind_from c r (i + 1) (if Ascii.eqb d c then i else acc)
  end.

Definition rfind (c : ascii) (s : string) : Z := rfind_from c s 0 (-1).

(** [s[i:]] for [0 <= i]. *)
Fixpoint drop (n : nat) (s : string) : string :=
  match n, s with
  | O, _ => s
  | S _, EmptyString => EmptyString
  | S m, String _ r => drop m r
  end.

(** [posixpath.basename]: [i = p.rfind('/') + 1; return p[i:]]. *)
Definition basename (p : string) : string :=
  let i := rfind "/"%char p + 1 in
  drop (Z.to_nat i) p.

(** Truthiness of a [str]. *)
Definition truthy (s : string) : bool :=
  match s with EmptyString => false | _ => true end.

(** Truthiness of an optional [str] ([None] or a string). *)
Definition truthy_opt (o : option string) : bool :=
  match o with None => false | Some s => truthy s end.

(** [str(n)] for an [int]. *)
Definition str_int (n : Z) : string := NilZero.string_of_int (Z.to_int n).

Definition dquote : string := String "034"%char EmptyString.

End Py.

(** ** Exceptions and the state-and-exception monad *)

Inductive exn : Type :=
| KeyError (key : string)
| ValueError (msg : string)
| FileNotFoundError (msg : string)
| OSError (msg : string)
| BadZipFile (msg : string)
| NotImplementedError (msg : string)
| RuntimeError (msg : string)
| AttributeError (msg : string)
| HTTPException (code : Z) (description : string)
| KeyboardInterrupt.

(** [isinstance(e, Exception)]: everything but the [BaseException]-only
    classes. *)
Definition is_Exception (e : exn) : bool :=
  match e with KeyboardInterrupt => false | _ => true end.

Definition is_KeyError (e : exn) : bool :=
  match e with KeyError _ => true | _ => false end.

Definition is_ValueError (e : exn) : bool :=
  match e with ValueError _ => true | _ => false end.

(** [FileNotFoundError] is the only subclass of itself in the model. *)
Definition is_FileNotFoundError (e : exn) : bool :=
  match e with FileNotFoundError _ => true | _ => false end.

(** [str(e)] for the exceptions whose text the views show. *)
Definition str_exn (e : exn) : string :=
  match e with
  | KeyError k => "'" ++ k ++ "'"
  | ValueError m | FileNotFoundError m | OSError m | BadZipFile m
  | NotImplementedError m | RuntimeError m | AttributeError m => m
  | HTTPException _ d => d
  | KeyboardInterrupt => ""
  end.

Inductive Res (A : Type) : Type :=
| Ok (v : A)
| Raise (e : exn).
Arguments Ok {A} v.
Arguments Raise {A} e.

Definition M (S A : Type) : Type := S -> Res A * S.

Definition ret {S A} (v : A) : M S A := fun s => (Ok v, s).

Definition bind {S A B} (m : M S A) (k : A -> M S B) : M S B :=
  fun s => match m s with
           | (Ok v, s') => k v s'
           | (Raise e, s') => (Raise e, s')
           end.

Definition raise {S A} (e : exn) : M S A := fun s => (Raise e, s).

Definition get {S} : M S S := fun s => (Ok s, s).
Definition put {S} (s : S) : M S unit := fun _ => (Ok tt, s).
Definition modify {S} (f : S -> S) : M S unit := fun s => (Ok tt, f s).

(** A property that may raise, read inside a computation. *)
Definition of_res {S A} (r : Res A) : M S A := fun s => (r, s).

(** [try: m  except <all>: handler(e)]; a handler re-raises what it does
    not catch. *)
Definition try_except {S A} (m : M S A) (handler : exn -> M S A) : M S A :=
  fun s => match m s with
           | (Ok v, s') => (Ok v, s')
           | (Raise e, s') => handler e s'
           end.

#[global] Instance M_ret {S} : MRet (M S) := fun A v => ret v.
#[global] Instance M_bind {S} : MBind (M S) := fun A B k m => bind m k.

(** [with ctx as x: body] for a context manager whose [__enter__] returns
    what [ctx] evaluated to and whose [__exit__] runs [release] and returns a
    falsy value: [release] runs on every exit of the body, the body's
    exception is re-raised afterwards, and an exception of [release] itself
    replaces it. *)
Definition with_ {S R A} (ctx : M S R) (release : R -> M S unit)
    (body : R -> M S A) : M S A :=
  r ← ctx;
  fun s => match body r s with
           | (Ok v, s') =>
               match release r s' with
               | (Ok _, s'') => (Ok v, s'')
               | (Raise e, s'') => (Raise e, s'')
               end
           | (Raise e, s') =>
               match release r s' with
               | (Ok _, s'') => (Raise e, s'')
               | (Raise e', s'') => (Raise e', s'')
               end
           end.

(** Run a computation on the second component of a pair state. *)
Definition liftW {O W A} (m : M W A) : M (O * W) A :=
  fun '(o, w) => match m w with (r, w') => (r, (o, w')) end.

Definition getself {O W} : M (O * W) O := fun '(o, w) => (Ok o, (o, w)).
Definition setself {O W} (f : O -> O) : M (O * W) unit :=
  fun '(o, w) => (Ok tt, (f o, w)).

(** Build an object: run the body of [__init__] on the freshly allocated
    [self]; the object is the result, and is dropped when [__init__]
    raises. *)
Definition construct {O W} (self0 : O) (init : M (O * W) unit) : M W O :=
  fun w => match init (self0, w) with
           | (Ok _, (o, w')) => (Ok o, w')
           | (Raise e, (_, w')) => (Raise e, w')
           end.

(** ** The storage layer and [zipfile] (outside the repository) *)

(** An entry of the central directory.  [zi_open_error] is what
    [ZipFile.open] raises on this entry after finding it (bad local header,
    unsupported compression, encrypted entry), if anything; [zi_data] is the
    decompressed content. *)
Record ZipInfo : Type := {
  zi_filename : string;
  file_size : Z;
  compress_size : Z;
  zi_open_error : option exn;
  zi_data : list Byte.byte
}.

(** What [zipfile.ZipFile(fp)] finds in a stored object: a central directory
    it can parse, or a reason to raise. *)
Inductive Archive : Type :=
| Corrupt (e : exn)
| Central (filelist : list ZipInfo).

(** What [storage().open()] finds. *)
Inductive Blob : Type :=
| Unopenable (e : exn)
| Stored (content : Archive).

Inductive resource : Type :=
| Handle (n : nat)    (* the raw container handle number [n] *)
| Index (n : nat)     (* the [ZipFile] built on handle [n] *)
| Member (n : nat).   (* the member stream opened from [ZipFile] [n] *)

Inductive event : Type :=
| Acquire (r : resource)
| Release (r : resource)         (* a call of [r.close()] *)
| Lookup (n : nat) (path : string)  (* [getinfo(path)] on [ZipFile] [n] *)
| LogError (msg : string).

#[global] Instance resource_eq_dec : EqDecision resource.
Proof. solve_decision. Defined.

#[global] Instance event_eq_dec : EqDecision event.
Proof. solve_decision. Defined.

Record World : Type := {
  next_id : nat;
  log : list event
}.

Definition world0 : World := {| next_id := 0; log := [] |}.

Definition emit (e : event) : M World unit :=
  modify (fun w => {| next_id := next_id w; log := log w ++ [e] |}).

Definition fresh : M World nat :=
  fun w => (Ok (next_id w), {| next_id := S (next_id w); log := log w |}).

Record FileHandle : Type := {
  fh_id : nat;
  fh_content : Archive
}.

Record ZipFile : Type := {
  zf_id : nat;
  filelist : list ZipInfo;
  NameToInfo : gmap string ZipInfo
}.

Record ZipExtFile : Type := {
  zef_id : nat;
  zef_data : list Byte.byte;
  zef_pos : nat;
  zef_closed : bool
}.

Definition storage_open (b : Blob) : M World FileHandle :=
  match b with
  | Unopenable e => raise e
  | Stored a =>
      n ← fresh;
      emit (Acquire (Handle n));;
      mret {| fh_id := n; fh_content := a |}
  end.

Definition FileHandle_close (fp : FileHandle) : M World unit :=
  emit (Release (Handle (fh_id fp))).

(** [ZipFile._RealGetContents]: [NameToInfo[x.filename] = x] for every entry
    in directory order, so a later duplicate replaces an earlier one. *)
Definition name_to_info (fl : list ZipInfo) : gmap string ZipInfo :=
  foldl (fun m zi => <[zi_filename zi := zi]> m) ∅ fl.

Definition ZipFile_new (fp : FileHandle) : M World ZipFile :=
  match fh_content fp with
  | Corrupt e => raise e
  | Central fl =>
      emit (Acquire (Index (fh_id fp)));;
      mret {| zf_id := fh_id fp; filelist := fl; NameToInfo := name_to_info fl |}
  end.

Definition ZipFile_close (zf : ZipFile) : M World unit :=
  emit (Release (Index (zf_id zf))).

Definition getinfo (zf : ZipFile) (name : string) : M World ZipInfo :=
  emit (Lookup (zf_id zf) name);;
  match NameToInfo zf !! name with
  | None => raise (KeyError ("There is no item named '" ++ name ++ "' in the archive"))
  | Some info => mret info
  end.

(** [ZipFile.open(name, "r")] *)
Definition ZipFile_open (zf : ZipFile) (name : string) : M World ZipExtFile :=
  zinfo ← getinfo zf name;
  match zi_open_error zinfo with
  | Some e => raise e
  | None =>
      emit (Acquire (Member (zf_id zf)));;
      mret {| zef_id := zf_id zf; zef_data := zi_data zinfo; zef_pos := 0%nat;
              zef_closed := false |}
  end.

Definition ZipExtFile_close (s : ZipExtFile) : M World ZipExtFile :=
  emit (Release (Member (zef_id s)));;
  mret {| zef_id := zef_id s; zef_data := zef_data s; zef_pos := zef_pos s;
          zef_closed := true |}.

(** ** [api.py] *)

Module ObjectVersion.
Record t : Type := {
  key : string;
  size : Z;
  bucket_id : string;
  storage : Blob
}.
End ObjectVersion.

Record PID : Type := { pid_type : string; pid_value : string }.

(** The record is only passed around. *)
Definition RecordT : Type := string.

Module PreviewFile.
Record t : Type := {
  file : ObjectVersion.t;
  pid : PID;
  record : RecordT
}.

Definition __init__ (pid : PID) (record : RecordT) (fileobj : ObjectVersion.t)
  : t :=
  {| file := fileobj; pid := pid; record := record |}.

Definition size (self : t) : Z := ObjectVersion.size (file self).

Definition filename (self : t) : string :=
  Py.basename (ObjectVersion.key (file self)).

Definition bucket (self : t) : string :=
  ObjectVersion.bucket_id (file self).

Definition is_local (self : t) : bool := true.

Definition open (self : t) : M World FileHandle :=
  storage_open (ObjectVersion.storage (file self)).
End PreviewFile.

Module ZipExtractedFile.
Record t : Type := {
  file : ObjectVersion.t;
  pid : PID;
  record : RecordT;
  zip_fileobj : PreviewFile.t;
  zip_path : string;
  _file_info : option (gmap string Z);
  _zipfile_ref : option ZipFile;
  _zip_fp_ref : option FileHandle
}.

Definition set_file_info (d : gmap string Z) (self : t) : t :=
  {| file := file self; pid := pid self; record := record self;
     zip_fileobj := zip_fileobj self; zip_path := zip_path self;
     _file_info := Some d;
     _zipfile_ref := _zipfile_ref self; _zip_fp_ref := _zip_fp_ref self |}.

Definition _load_file_info : M (t * World) unit :=
  try_except
    (self ← getself;
     with_ (liftW (PreviewFile.open (zip_fileobj self)))
           (fun zip_fp => liftW (FileHandle_close zip_fp))
           (fun zip_fp =>
      with_ (liftW (ZipFile_new zip_fp))
            (fun zf => liftW (ZipFile_close zf))
            (fun zf =>
       info ← liftW (getinfo zf (zip_path self));
       setself (set_file_info
                  (<["compressed_size" := compress_size info]>
                     {["size" := file_size info]})))))
    (fun e =>
       self ← getself;
       if is_KeyError e then
         raise (FileNotFoundError
                  ("File '" ++ zip_path self ++ "' not found in ZIP archive"))
       else if is_Exception e then
         setself (set_file_info {["size" := 0]})
       else raise e).

Definition __init__ (pid : PID) (record : RecordT)
    (zip_fileobj : PreviewFile.t) (zip_path : string) : M World t :=
  construct
    {| file := PreviewFile.file zip_fileobj; pid := pid; record := record;
       zip_fileobj := zip_fileobj; zip_path := zip_path;
       _file_info := None; _zipfile_ref := None; _zip_fp_ref := None |}
    _load_file_info.

(** [self._file_info.get("size", 0)]; [_file_info] is a dict on every
    constructed object, [None] only inside [__init__]. *)
Definition size (self : t) : Res Z :=
  match _file_info self with
  | Some d => Ok (default 0 (d !! "size"))
  | None => Raise (AttributeError "'NoneType' object has no attribute 'get'")
  end.

Definition filename (self : t) : string := Py.basename (zip_path self).

Definition is_local (self : t) : bool := true.
End ZipExtractedFile.

(** What the factory returns: one of the two classes. *)
Inductive VirtualFile : Type :=
| Direct (f : PreviewFile.t)
| Extracted (f : ZipExtractedFile.t).

Definition create_preview_file (pid : PID) (record : RecordT)
    (fileobj : ObjectVersion.t) (zip_path : option string)
  : M World VirtualFile :=
  let base_file := PreviewFile.__init__ pid record fileobj in
  match zip_path with
  | Some zp =>
      if Py.truthy zp then
        if negb (Py.endswith (Py.lower (PreviewFile.filename base_file)) ".zip")
        then raise (ValueError "Container file must be a ZIP archive")
        else
          f ← ZipExtractedFile.__init__ pid record base_file zp;
          mret (Extracted f)
      else mret (Direct base_file)
  | None => mret (Direct base_file)
  end.

(** ** [ZipExtFile], the member stream of [zipfile] (outside the repository) *)

Module ZipExtFile_ops.
Definition set_pos (n : nat) (s : ZipExtFile) : ZipExtFile :=
  {| zef_id := zef_id s; zef_data := zef_data s; zef_pos := n;
     zef_closed := zef_closed s |}.

Definition remaining (s : ZipExtFile) : list Byte.byte :=
  skipn (zef_pos s) (zef_data s).

Definition is_newline (b : Byte.byte) : bool :=
  match b with Byte.x0a => true | _ => false end.

(** The lines of a byte string, each with its terminator. *)
Fixpoint split_lines (l : list Byte.byte) : list (list Byte.byte) :=
  match l with
  | [] => []
  | b :: r =>
      if is_newline b then [b] :: split_lines r
      else match split_lines r with
           | [] => [[b]]
           | ln :: lns => (b :: ln) :: lns
           end
  end.

(** Lines up to the first one that is longer than what is left of [hint]
    after the lines before it. *)
Fixpoint take_hint (hint : Z) (lines : list (list Byte.byte))
  : list (list Byte.byte) :=
  match lines with
  | [] => []
  | ln :: lns =>
      let n := Z.of_nat (length ln) in
      if hint <? n then [ln] else ln :: take_hint (hint - n) lns
  end.

Definition guard_open {A} (what : string) (m : M ZipExtFile A)
  : M ZipExtFile A :=
  fun s => if zef_closed s
           then (Raise (ValueError (what ++ " closed file.")), s)
           else m s.

Definition advance (out : list Byte.byte) : M ZipExtFile unit :=
  modify (fun s => set_pos (zef_pos s + length out)%nat s).

(** [read(n)]: everything that is left when [n] is negative. *)
Definition read (n : Z) : M ZipExtFile (list Byte.byte) :=
  guard_open "read from"
    (s ← get;
     let out := if n <? 0 then remaining s
                else firstn (Z.to_nat n) (remaining s) in
     advance out;; mret out).

Definition readline (limit : Z) : M ZipExtFile (list Byte.byte) :=
  guard_open "read from"
    (s ← get;
     let ln := match split_lines (remaining s) with
               | [] => []
               | ln :: _ => ln
               end in
     let out := if limit <? 0 then ln else firstn (Z.to_nat limit) ln in
     advance out;; mret out).

Definition readlines (hint : Z) : M ZipExtFile (list (list Byte.byte)) :=
  guard_open "I/O operation on"
    (s ← get;
     let lines := split_lines (remaining s) in
     let out := if hint <=? 0 then lines else take_hint hint lines in
     advance (concat out);; mret out).

Definition tell : M ZipExtFile Z :=
  guard_open "tell on" (s ← get; mret (Z.of_nat (zef_pos s))).

Definition seek (offset whence : Z) : M ZipExtFile Z :=
  guard_open "seek on"
    (s ← get;
     let size := Z.of_nat (length (zef_data s)) in
     let curr_pos := Z.of_nat (zef_pos s) in
     if negb ((whence =? 0) || (whence =? 1) || (whence =? 2)) then
       raise (ValueError
         "whence must be os.SEEK_SET (0), os.SEEK_CUR (1), or os.SEEK_END (2)")
     else
       let new_pos := if whence =? 0 then offset
                      else if whence =? 1 then curr_pos + offset
                      else size + offset in
       let new_pos := if size <? new_pos then size else new_pos in
       let new_pos := if new_pos <? 0 then 0 else new_pos in
       put (set_pos (Z.to_nat new_pos) s);;
       mret new_pos).
(** [iter(stream)]: the stream is its own iterator. *)
Definition iter : M ZipExtFile ZipExtFile :=
  guard_open "I/O operation on" get.
End ZipExtFile_ops.

(** ** [ZipFileStream] *)

Module ZipFileStream.
Record t : Type := {
  zip_extracted_file : ZipExtractedFile.t;
  _zip_fp : option FileHandle;
  _zipfile : option ZipFile;
  _stream : option ZipExtFile;
  _opened : bool
}.

Definition __init__ (zip_extracted_file : ZipExtractedFile.t) : t :=
  {| zip_extracted_file := zip_extracted_file;
     _zip_fp := None; _zipfile := None; _stream := None;
     _opened := false |}.

Definition set_zip_fp (v : option FileHandle) (self : t) : t :=
  {| zip_extracted_file := zip_extracted_file self;
     _zip_fp := v; _zipfile := _zipfile self; _stream := _stream self;
     _opened := _opened self |}.

Definition set_zipfile (v : option ZipFile) (self : t) : t :=
  {| zip_extracted_file := zip_extracted_file self;
     _zip_fp := _zip_fp self; _zipfile := v; _stream := _stream self;
     _opened := _opened self |}.

Definition set_stream (v : option ZipExtFile) (self : t) : t :=
  {| zip_extracted_file := zip_extracted_file self;
     _zip_fp := _zip_fp self; _zipfile := _zipfile self; _stream := v;
     _opened := _opened self |}.

Definition set_opened (v : bool) (self : t) : t :=
  {| zip_extracted_file := zip_extracted_file self;
     _zip_fp := _zip_fp self; _zipfile := _zipfile self;
     _stream := _stream self; _opened := v |}.

Definition _ensure_open : M (t * World) unit :=
  self ← getself;
  if negb (_opened self) then
    zip_fp ← liftW (PreviewFile.open
                      (ZipExtractedFile.zip_fileobj (zip_extracted_file self)));
    setself (set_zip_fp (Some zip_fp));;
    zf ← liftW (ZipFile_new zip_fp);
    setself (set_zipfile (Some zf));;
    stream ← liftW (ZipFile_open zf
                      (ZipExtractedFile.zip_path (zip_extracted_file self)));
    setself (set_stream (Some stream));;
    setself (set_opened true)
  else mret tt.

(** [self._stream.<op>(...)]: the call mutates the stream object that
    [self._stream] refers to. *)
Definition on_stream {A} (op : M ZipExtFile A) : M (t * World) A :=
  fun '(self, w) =>
    match _stream self with
    | None =>
        (Raise (AttributeError "'NoneType' object has no attribute"), (self, w))
    | Some s =>
        match op s with
        | (r, s') => (r, (set_stream (Some s') self, w))
        end
    end.

Definition read (size : Z) : M (t * World) (list Byte.byte) :=
  _ensure_open;; on_stream (ZipExtFile_ops.read size).

Definition readline (size : Z) : M (t * World) (list Byte.byte) :=
  _ensure_open;; on_stream (ZipExtFile_ops.readline size).

Definition readlines (hint : Z) : M (t * World) (list (list Byte.byte)) :=
  _ensure_open;; on_stream (ZipExtFile_ops.readlines hint).

Definition seek (offset whence : Z) : M (t * World) Z :=
  _ensure_open;; on_stream (ZipExtFile_ops.seek offset whence).

Definition tell : M (t * World) Z :=
  _ensure_open;; on_stream ZipExtFile_ops.tell.

Definition close : M (t * World) unit :=
  self ← getself;
  if _opened self then
    match _stream self with
    | Some s =>
        s' ← liftW (ZipExtFile_close s);
        setself (set_stream (Some s'))
    | None => mret tt
    end;;
    match _zipfile self with
    | Some zf => liftW (ZipFile_close zf)
    | None => mret tt
    end;;
    match _zip_fp self with
    | Some fp => liftW (FileHandle_close fp)
    | None => mret tt
    end;;
    setself (set_opened false)
  else mret tt.

(** [__enter__] returns [self]. *)
Definition __enter__ : M (t * World) t :=
  _ensure_open;; getself.

(** [__exit__(exc_type, exc_val, exc_tb)]; the arguments are not used. *)
Definition __exit__ (exc : option exn) : M (t * World) bool :=
  close;; mret false.

(** [iter(self._stream)] *)
Definition __iter__ : M (t * World) ZipExtFile :=
  _ensure_open;;
  on_stream ZipExtFile_ops.iter.

Definition __del__ : M (t * World) unit := close.
End ZipFileStream.

(** [with cm as x: body] for an object with its own [__enter__] and
    [__exit__]: [__exit__] is not called when [__enter__] raises; otherwise
    it is called with the exception of the body, if any, and a truthy result
    suppresses that exception ([None] is returned then). *)
Definition with_stmt {S R A} (enter : M S R) (exit : option exn -> M S bool)
    (body : R -> M S A) : M S (option A) :=
  bind enter (fun r s =>
           match body r s with
           | (Ok v, s') =>
               match exit None s' with
               | (Ok _, s'') => (Ok (Some v), s'')
               | (Raise e, s'') => (Raise e, s'')
               end
           | (Raise e, s') =>
               match exit (Some e) s' with
               | (Ok true, s'') => (Ok None, s'')
               | (Ok false, s'') => (Raise e, s'')
               | (Raise e', s'') => (Raise e', s'')
               end
           end).

(** [ZipExtractedFile.open]: the stream is returned unopened. *)
Definition ZipExtractedFile_open (self : ZipExtractedFile.t) : ZipFileStream.t :=
  ZipFileStream.__init__ self.

(** ** [views.py]: the download view *)

(** Attribute access on what the factory returned dispatches on the class. *)
Definition vf_filename (f : VirtualFile) : string :=
  match f with
  | Direct p => PreviewFile.filename p
  | Extracted z => ZipExtractedFile.filename z
  end.

Definition vf_size (f : VirtualFile) : Res Z :=
  match f with
  | Direct p => Ok (PreviewFile.size p)
  | Extracted z => ZipExtractedFile.size z
  end.

(** What [open()] hands to the response: the storage layer's own stream, or
    a [ZipFileStream]. *)
Inductive Body : Type :=
| RawBody (fp : FileHandle)
| StreamBody (s : ZipFileStream.t).

Definition vf_open (f : VirtualFile) : M World Body :=
  match f with
  | Direct p => fp ← PreviewFile.open p; mret (RawBody fp)
  | Extracted z => mret (StreamBody (ZipExtractedFile_open z))
  end.

Record Request : Type := {
  view_args : gmap string string;
  args : gmap string string
}.

Inductive ViewResult : Type :=
| Response (body : Body) (mimetype : string) (headers : gmap string string)
| original_download (pid : PID) (record : RecordT) (kwargs : gmap string string).

(** [flask.abort(code, description)] *)
Definition abort {S A} (code : Z) (description : string) : M S A :=
  raise (HTTPException code description).

(** The description [werkzeug] gives to [abort(404)] when none is passed. *)
Definition not_found_description : string :=
  "The requested URL was not found on the server. If you entered the URL manually please check your spelling and try again.".

(** A header value that [werkzeug] refuses: one with a line feed or a
    carriage return in it. *)
Fixpoint has_newline (s : string) : bool :=
  match s with
  | EmptyString => false
  | String c r =>
      Ascii.eqb c "010"%char || Ascii.eqb c "013"%char || has_newline r
  end.

(** [flask.Response(response, mimetype=..., headers={...})], as far as the
    view depends on it: [werkzeug] copies the headers of the dict, in the
    order they were written, sets [Content-Type] from the mimetype, and
    raises [ValueError] on a value with a newline in it. *)
Definition Response_new (body : Body) (mimetype : string)
    (headers : list (string * string)) : Res ViewResult :=
  if existsb (fun kv => has_newline (snd kv)) headers || has_newline mimetype
  then Raise (ValueError "Header values must not contain newline characters.")
  else Ok (Response body mimetype (list_to_map headers)).

Section Views.

(** [current_previewer.record_file_factory] and [mimetypes.guess_type] are
    collaborators from outside the repository. *)
Variable record_file_factory :
  PID -> RecordT -> option string -> option ObjectVersion.t.
Variable guess_type : string -> option string * option string.

Definition file_download_ui (request : Request) (pid : PID) (record : RecordT)
    (kwargs : gmap string string) : M World ViewResult :=
  let filename := view_args request !! "filename" in
  match record_file_factory pid record filename with
  | None => abort 404 not_found_description
  | Some fileobj =>
      let zip_path := args request !! "zip_path" in
      if Py.truthy_opt zip_path then
        extracted_file ←
          try_except (create_preview_file pid record fileobj zip_path)
            (fun e =>
               if is_ValueError e then abort 400 (str_exn e)
               else if is_FileNotFoundError e then abort 404 (str_exn e)
               else if is_Exception e then
                 emit (LogError ("Error accessing file in ZIP: " ++ str_exn e));;
                 abort 500 "Error accessing file in ZIP archive"
               else raise e);
        let mimetype :=
          match fst (guess_type (vf_filename extracted_file)) with
          | None => "application/octet-stream"
          | Some m => m
          end in
        file_stream ← vf_open extracted_file;
        content_length ← of_res (vf_size extracted_file);
        of_res (Response_new file_stream mimetype
                  [("Content-Disposition",
                    "inline; filename=" ++ Py.dquote
                      ++ vf_filename extracted_file ++ Py.dquote);
                   ("Content-Length", Py.str_int content_length)])
      else
        mret (original_download pid record kwargs)
  end.

End Views.

(** ** [os.path.splitext] and [has_extensions] *)

Module PyPath.
(** [s[:n]] for [0 <= n]. *)
Fixpoint take (n : nat) (s : string) : string :=
  match n, s with
  | O, _ => EmptyString
  | S _, EmptyString => EmptyString
  | S m, String c r => String c (take m r)
  end.

(** [p[i:i+1] != "."] *)
Definition not_dot_at (p : string) (i : nat) : bool :=
  match String.get i p with
  | Some c => negb (Ascii.eqb c "."%char)
  | None => true
  end.

(** The loop of [genericpath._splitext]:
    [while filenameIndex < dotIndex: if p[filenameIndex] != '.': return ...;
    filenameIndex += 1], run for the [dotIndex - filenameIndex] rounds it can
    take.  [true] when it returns from inside. *)
Fixpoint skip_leading_dots (p : string) (filenameIndex : nat) (rounds : nat)
  : bool :=
  match rounds with
  | O => false
  | S n =>
      if not_dot_at p filenameIndex then true
      else skip_leading_dots p (S filenameIndex) n
  end.

(** [posixpath.splitext] *)
Definition splitext (p : string) : string * string :=
  let sepIndex := Py.rfind "/"%char p in
  let dotIndex := Py.rfind "."%char p in
  if sepIndex <? dotIndex then
    let filenameIndex := sepIndex + 1 in
    if skip_leading_dots p (Z.to_nat filenameIndex)
         (Z.to_nat (dotIndex - filenameIndex))
    then (take (Z.to_nat dotIndex) p, Py.drop (Z.to_nat dotIndex) p)
    else (p, EmptyString)
  else (p, EmptyString).
End PyPath.

(** [file_ext in exts] for the tuple of candidates. *)
Definition str_in (s : string) (l : list string) : bool :=
  existsb (String.eqb s) l.

(** [PreviewFile.has_extensions], on the tuple of its arguments *)
Definition PreviewFile_has_extensions (self : PreviewFile.t)
    (exts : list string) : bool :=
  let file_ext := Py.lower (snd (PyPath.splitext (PreviewFile.filename self))) in
  str_in file_ext exts.

(** [ZipExtractedFile.has_extensions]: on the member path. *)
Definition ZipExtractedFile_has_extensions (self : ZipExtractedFile.t)
    (exts : list string) : bool :=
  let file_ext :=
    Py.lower (snd (PyPath.splitext (ZipExtractedFile.zip_path self))) in
  str_in file_ext exts.

Definition vf_has_extensions (f : VirtualFile) (exts : list string) : bool :=
  match f with
  | Direct p => PreviewFile_has_extensions p exts
  | Extracted z => ZipExtractedFile_has_extensions z exts
  end.

(** ** [views.py]: the preview view *)

(** [fileobj.file] and [fileobj.pid] on either class. *)
Definition vf_file (f : VirtualFile) : ObjectVersion.t :=
  match f with
  | Direct p => PreviewFile.file p
  | Extracted z => ZipExtractedFile.file z
  end.

Definition vf_pid (f : VirtualFile) : PID :=
  match f with
  | Direct p => PreviewFile.pid p
  | Extracted z => ZipExtractedFile.pid z
  end.

(** A previewer plugin, from outside the repository: what [can_preview] and
    [preview] return or raise on a file.  What a plugin does to the storage
    layer is not modelled. *)
Record Plugin : Type := {
  can_preview : VirtualFile -> Res bool;
  plugin_preview : VirtualFile -> Res string
}.

(** The application around the preview view: the storage world, and the
    messages given to [current_app.logger.warning]. *)
Record App : Type := {
  app_world : World;
  app_warnings : list string
}.

Definition liftApp {A} (m : M World A) : M App A :=
  fun a => match m (app_world a) with
           | (r, w') => (r, {| app_world := w'; app_warnings := app_warnings a |})
           end.

Definition logger_warning (msg : string) : M App unit :=
  modify (fun a => {| app_world := app_world a;
                      app_warnings := app_warnings a ++ [msg] |}).

Section PreviewView.

(** [current_previewer.record_file_factory], [current_previewer.iter_previewers]
    and [extensions.default.preview] are collaborators from outside the
    repository.  [declared_previewer] stands for
    [fileobj.file.get("previewer") if hasattr(fileobj, "file") and
    isinstance(fileobj.file, dict) else None], which depends on the class of
    the stored object. *)
Variable record_file_factory :
  PID -> RecordT -> option string -> option ObjectVersion.t.
Variable declared_previewer : VirtualFile -> option string.
Variable iter_previewers : option (list string) -> list Plugin.
Variable default_preview : VirtualFile -> Res string.

Definition preview_failed_message (fileobj : VirtualFile) : string :=
  "Preview failed for " ++ ObjectVersion.key (vf_file fileobj) ++ ", in "
    ++ pid_type (vf_pid fileobj) ++ ":" ++ pid_value (vf_pid fileobj).

(** The [for plugin in ...] loop; [Some v] when it returns [v] from inside,
    [None] when it runs to its end. *)
Fixpoint try_plugins (plugins : list Plugin) (fileobj : VirtualFile)
  : M App (option string) :=
  match plugins with
  | [] => mret None
  | plugin :: rest =>
      ok ← of_res (can_preview plugin fileobj);
      if ok : bool then
        try_except
          (v ← of_res (plugin_preview plugin fileobj); mret (Some v))
          (fun e =>
             if is_Exception e then
               logger_warning (preview_failed_message fileobj);;
               try_plugins rest fileobj
             else raise e)
      else try_plugins rest fileobj
  end.

(** [request.view_args.get("filename", request.args.get("filename", type=str))] *)
Definition preview_filename (request : Request) : option string :=
  match view_args request !! "filename" with
  | Some f => Some f
  | None => args request !! "filename"
  end.

(** The argument given to [iter_previewers]: the previewer the file declares,
    looked at only when no member path was asked for, as a one-element list,
    or [None]. *)
Definition preview_selection (zip_path : option string)
    (fileobj : VirtualFile) : option (list string) :=
  let file_previewer :=
    if negb (Py.truthy_opt zip_path) then declared_previewer fileobj
    else None in
  if Py.truthy_opt file_previewer
  then option_map (fun p => [p]) file_previewer
  else None.

(** [preview(pid, record)].  The [print] of the plugin list writes to
    standard output only and is left out. *)
Definition preview (request : Request) (pid : PID) (record : RecordT)
  : M App string :=
  let filename := preview_filename request in
  match record_file_factory pid record filename with
  | None => abort 404 not_found_description
  | Some fileobj =>
      let zip_path := args request !! "zip_path" in
      fileobj ←
        try_except (liftApp (create_preview_file pid record fileobj zip_path))
          (fun e =>
             if is_ValueError e then abort 400 (str_exn e)
             else if is_FileNotFoundError e then abort 404 (str_exn e)
             else if is_Exception e then
               liftApp (emit (LogError ("Error creating preview file: "
                                          ++ str_exn e)));;
               abort 500 "Error accessing file"
             else raise e);
      r ← try_plugins (iter_previewers (preview_selection zip_path fileobj))
            fileobj;
      match r with
      | Some v => mret v
      | None => of_res (default_preview fileobj)
      end
  end.

End PreviewView.

(** ** Vocabulary of the statements *)

(** The design document's wording of the gate: the name ends with the
    container extension, compared without regard to case. *)
Definition ends_with_ci (name ext : string) : Prop :=
  exists p t, name = p ++ t /\ Py.lower t = ext.

(** Unfold the monad down to pairs. *)
Ltac run :=
  cbv [mbind mret M_bind M_ret bind ret raise get put modify of_res
       try_except with_ with_stmt liftW getself setself construct abort
       emit fresh].

(** The operations that start with [self._ensure_open()], and what they
    return. *)
Inductive trigger : Type :=
| Tread (size : Z)
| Treadline (size : Z)
| Treadlines (hint : Z)
| Tseek (offset whence : Z)
| Ttell
| Titer.

Inductive value : Type :=
| VBytes (b : list Byte.byte)
| VLines (l : list (list Byte.byte))
| VInt (n : Z)
| VIter (s : ZipExtFile).

Definition fmapM {S A B} (f : A -> B) (m : M S A) : M S B :=
  x ← m; mret (f x).

Definition call (op : trigger) : M (ZipFileStream.t * World) value :=
  match op with
  | Tread n => fmapM VBytes (ZipFileStream.read n)
  | Treadline n => fmapM VBytes (ZipFileStream.readline n)
  | Treadlines h => fmapM VLines (ZipFileStream.readlines h)
  | Tseek o wh => fmapM VInt (ZipFileStream.seek o wh)
  | Ttell => fmapM VInt ZipFileStream.tell
  | Titer => fmapM VIter ZipFileStream.__iter__
  end.

(** The same operations on the member stream itself. *)
Definition stream_op (op : trigger) : M ZipExtFile value :=
  match op with
  | Tread n => fmapM VBytes (ZipExtFile_ops.read n)
  | Treadline n => fmapM VBytes (ZipExtFile_ops.readline n)
  | Treadlines h => fmapM VLines (ZipExtFile_ops.readlines h)
  | Tseek o wh => fmapM VInt (ZipExtFile_ops.seek o wh)
  | Ttell => fmapM VInt ZipExtFile_ops.tell
  | Titer => fmapM VIter ZipExtFile_ops.iter
  end.

(** What the open sequence acquires on handle number [n], in order. *)
Definition acquisitions (n : nat) (path : string) : list event :=
  [Acquire (Handle n); Acquire (Index n); Lookup n path; Acquire (Member n)].

Definition opened_on (n : nat) (fl : list ZipInfo) (info : ZipInfo)
    (self : ZipFileStream.t) : ZipFileStream.t :=
  {| ZipFileStream.zip_extracted_file := ZipFileStream.zip_extracted_file self;
     ZipFileStream._zip_fp := Some {| fh_id := n; fh_content := Central fl |};
     ZipFileStream._zipfile :=
       Some {| zf_id := n; filelist := fl; NameToInfo := name_to_info fl |};
     ZipFileStream._stream :=
       Some {| zef_id := n; zef_data := zi_data info; zef_pos := 0%nat;
               zef_closed := false |};
     ZipFileStream._opened := true |}.

Definition releases (s : ZipExtFile) (zf : ZipFile) (fp : FileHandle)
  : list event :=
  [Release (Member (zef_id s)); Release (Index (zf_id zf));
   Release (Handle (fh_id fp))].

(** The reading "transitions only forward": once a reader has been opened
    and closed, a later trigger raises and the world stays as [close] left
    it. *)
Definition no_reopen_after_close (zef : ZipExtractedFile.t) (w : World)
  : Prop :=
  forall op1 r1 st1 st2 op2 r2 st3,
    call op1 (ZipExtractedFile_open zef, w) = (r1, st1) ->
    ZipFileStream.close st1 = (Ok tt, st2) ->
    call op2 st2 = (r2, st3) ->
    (exists e, r2 = Raise e) /\ log (snd st3) = log (snd st2).

(** The content type and the [Content-Disposition] value the download view
    gives to a member of a given base name. *)
Definition download_mimetype
    (guess_type : string -> option string * option string) (name : string)
  : string :=
  match fst (guess_type name) with
  | Some m => m
  | None => "application/octet-stream"
  end.

Definition content_disposition (name : string) : string :=
  "inline; filename=" ++ Py.dquote ++ name ++ Py.dquote.

(** The member stream as [ZipFile.open] returns it on handle [n]: at
    position 0 and not closed. *)
Definition fresh_stream (n : nat) (info : ZipInfo) : ZipExtFile :=
  {| zef_id := n; zef_data := zi_data info; zef_pos := 0%nat;
     zef_closed := false |}.


(** ** Sample data *)

Definition sample_png : ZipInfo :=
  {| zi_filename := "folder/image.png"; file_size := 1234;
     compress_size := 600; zi_open_error := None;
     zi_data := [Byte.x50; Byte.x4e; Byte.x47; Byte.x0a; Byte.x21] |}.

Definition sample_pid : PID := {| pid_type := "recid"; pid_value := "123" |}.

Definition stored (key : string) (b : Blob) : ObjectVersion.t :=
  {| ObjectVersion.key := key; ObjectVersion.size := 4096;
     ObjectVersion.bucket_id := "bucket"; ObjectVersion.storage := b |}.

Definition sample_archive : ObjectVersion.t :=
  stored "data/Archive.ZIP" (Stored (Central [sample_png])).

Definition sample_corrupt : ObjectVersion.t :=
  stored "broken.zip" (Stored (Corrupt (BadZipFile "File is not a zip file"))).

Definition sample_zef : ZipExtractedFile.t :=
  {| ZipExtractedFile.file := sample_archive;
     ZipExtractedFile.pid := sample_pid; ZipExtractedFile.record := "rec";
     ZipExtractedFile.zip_fileobj :=
       PreviewFile.__init__ sample_pid "rec" sample_archive;
     ZipExtractedFile.zip_path := "folder/image.png";
     ZipExtractedFile._file_info :=
       Some (<["compressed_size" := 600]> {["size" := 1234]});
     ZipExtractedFile._zipfile_ref := None;
     ZipExtractedFile._zip_fp_ref := None |}.

(** A reader that has been opened on [sample_archive]. *)
Definition sample_open_reader : ZipFileStream.t :=
  opened_on 0 [sample_png] sample_png (ZipExtractedFile_open sample_zef).

(** A body that reads two bytes and then fails. *)
Definition sample_body (f : ZipFileStream.t)
  : M (ZipFileStream.t * World) (list Byte.byte) :=
  _ ← ZipFileStream.read 2; raise (RuntimeError "boom").

Definition sample_factory (pid : PID) (record : RecordT)
    (filename : option string) : option ObjectVersion.t :=
  match filename with
  | Some "Archive.ZIP" => Some sample_archive
  | _ => None
  end.

Definition sample_guess_type (name : string)
  : option string * option string :=
  if Py.endswith (Py.lower name) ".png" then (Some "image/png", None)
  else (None, None).

Definition sample_request : Request :=
  {| view_args := {["filename" := "Archive.ZIP"]};
     args := {["zip_path" := "folder/image.png"]} |}.

(** A call on a reader: one of the triggers, or [close()]. *)
Inductive reader_call : Type :=
| Trigger (op : trigger)
| Close.

(** Make the calls one after the other; a caller may go on after a call
    that raised, so the results are dropped and the state is kept. *)
Definition run_call (c : reader_call) (st : ZipFileStream.t * World)
  : ZipFileStream.t * World :=
  match c with
  | Trigger op => snd (call op st)
  | Close => snd (ZipFileStream.close st)
  end.

Definition run_calls (cs : list reader_call) (st : ZipFileStream.t * World)
  : ZipFileStream.t * World :=
  fold_left (fun st c => run_call c st) cs st.

(** Whether a character occurs in a string, and the index of its last
    occurrence. *)
Fixpoint occurs (c : ascii) (s : string) : bool :=
  match s with
  | EmptyString => false
  | String d r => Ascii.eqb d c || occurs c r
  end.

Fixpoint last_index (c : ascii) (s : string) : option nat :=
  match s with
  | EmptyString => None
  | String d r =>
      match last_index c r with
      | Some k => Some (S k)
      | None => if Ascii.eqb d c then Some 0%nat else None
      end
  end.

(** Candidates that [has_extensions] can match at all: written in lower
    case, and either empty or a dot followed by no further dot and no
    slash. *)
Definition can_match (e : string) : bool :=
  String.eqb (Py.lower e) e
  && match e with
     | EmptyString => true
     | String c r =>
         Ascii.eqb c "."%char && negb (occurs "."%char r)
         && negb (occurs "/"%char r)
     end.

(** The events of one probe of the container on handle [n]: nothing when it
    cannot be opened, an open and a close of the handle when it is not an
    archive, and otherwise the handle and the index opened, the path looked
    up, and both closed in reverse order. *)
Definition probe_events (n : nat) (path : string) (evs : list event) : Prop :=
  evs = []
  \/ evs = [Acquire (Handle n); Release (Handle n)]
  \/ evs = [Acquire (Handle n); Acquire (Index n); Lookup n path;
            Release (Index n); Release (Handle n)].

Definition sample_direct : PreviewFile.t :=
  PreviewFile.__init__ sample_pid "rec"
    (stored "pictures/2024/image.png" (Stored (Corrupt (BadZipFile "x")))).

(** A factory that finds one stored object whatever the name is. *)
Definition always (fileobj : ObjectVersion.t) (pid : PID) (record : RecordT)
    (filename : option string) : option ObjectVersion.t :=
  Some fileobj.

Definition sample_notes : ObjectVersion.t :=
  stored "notes.txt" (Stored (Central [sample_png])).

Definition request_for (name zp : string) : Request :=
  {| view_args := {["filename" := name]}; args := {["zip_path" := zp]} |}.

Definition request_broken : Request := request_for "broken.zip" "a.txt".

(** The log of [k] complete rounds of the reader on the handles [n],
    [n + 1], ...: each round acquires its three resources and releases them
    in reverse order before the next round starts. *)
Fixpoint rounds (n k : nat) (path : string) : list event :=
  match k with
  | O => []
  | S k' =>
      acquisitions n path
        ++ [Release (Member n); Release (Index n); Release (Handle n)]
        ++ rounds (S n) k' path
  end.

Definition sample_png_old : ZipInfo :=
  {| zi_filename := "folder/image.png"; file_size := 77;
     compress_size := 70; zi_open_error := None; zi_data := [Byte.x00] |}.

(** Where a reader on [zef] stands after [k] complete rounds, started in a
    world with log [log0] and next handle number [n0]: closed with exactly
    those rounds in the log, or open on handle [n0 + k] with the acquisitions
    of that handle as the last events. *)
Definition reader_inv (zef : ZipExtractedFile.t) (fl : list ZipInfo)
    (n0 : nat) (log0 : list event) (k : nat)
    (st : ZipFileStream.t * World) : Prop :=
  let p := ZipExtractedFile.zip_path zef in
  ZipFileStream.zip_extracted_file (fst st) = zef
  /\ if ZipFileStream._opened (fst st) then
       log (snd st) = (log0 ++ rounds n0 k p ++ acquisitions (n0 + k) p)%list
       /\ next_id (snd st) = S (n0 + k)
       /\ ZipFileStream._zip_fp (fst st)
          = Some {| fh_id := (n0 + k)%nat; fh_content := Central fl |}
       /\ ZipFileStream._zipfile (fst st)
          = Some {| zf_id := (n0 + k)%nat; filelist := fl;
                    NameToInfo := name_to_info fl |}
       /\ exists s, ZipFileStream._stream (fst st) = Some s
                    /\ zef_id s = (n0 + k)%nat
     else
       log (snd st) = (log0 ++ rounds n0 k p)%list
       /\ next_id (snd st) = (n0 + k)%nat.

Definition res_id (r : resource) : nat :=
  match r with Handle n | Index n | Member n => n end.

(** How often a resource is acquired, and how often [close()] is called on
    it, in a list of events. *)
Definition acquired (r : resource) (evs : list event) : nat :=
  count_occ event_eq_dec evs (Acquire r).

Definition released (r : resource) (evs : list event) : nat :=
  count_occ event_eq_dec evs (Release r).

(** A plugin that says it cannot preview the file, and one that says it can
    and then fails with an [Exception]. *)
Definition declines (q : Plugin) (f : VirtualFile) : Prop :=
  can_preview q f = Ok false.

Definition fails (q : Plugin) (f : VirtualFile) : Prop :=
  can_preview q f = Ok true
  /\ exists e, plugin_preview q f = Raise e /\ is_Exception e = true.

Definition accepts (q : Plugin) (f : VirtualFile) : bool :=
  match can_preview q f with Ok true => true | _ => false end.

(** The warnings logged for the plugins of a list that accept the file. *)
Definition failure_warnings (qs : list Plugin) (f : VirtualFile) : list string :=
  List.repeat (preview_failed_message f)
    (length (List.filter (fun q => accepts q f) qs)).

Definition plugin_declining : Plugin :=
  {| can_preview := fun _ => Ok false;
     plugin_preview := fun _ => Ok "never" |}.

Definition plugin_failing : Plugin :=
  {| can_preview := fun _ => Ok true;
     plugin_preview := fun _ => Raise (RuntimeError "cannot render") |}.

Definition plugin_images : Plugin :=
  {| can_preview := fun f => Ok (vf_has_extensions f [".png"; ".jpg"]);
     plugin_preview := fun f => Ok ("<img " ++ vf_filename f ++ ">") |}.

Definition app0 : App := {| app_world := world0; app_warnings := [] |}.

Definition world_after_probe (path : string) : World :=
  {| next_id := 1;
     log := [Acquire (Handle 0); Acquire (Index 0); Lookup 0 path;
             Release (Index 0); Release (Handle 0)] |}.

(** Count an event in a list written out, one element at a time. *)
Ltac count_step :=
  match goal with
  | |- context [count_occ event_eq_dec (?a :: ?l) ?x] =>
      let E := fresh "E" in
      destruct (event_eq_dec a x) as [E|E];
      [ try discriminate E; rewrite (count_occ_cons_eq event_eq_dec l E)
      | rewrite (count_occ_cons_neq event_eq_dec l E) ]
  end.

(** Turn boolean comparisons of numbers in the hypotheses into
    propositions. *)
Ltac bool_to_prop :=
  repeat match goal with
    | H : (_ && _)%bool = true |- _ => apply andb_true_iff in H as [? ?]
    | H : (_ && _)%bool = false |- _ => apply andb_false_iff in H as [?|?]
    | H : Nat.leb _ _ = true |- _ => apply Nat.leb_le in H
    | H : Nat.leb _ _ = false |- _ => apply Nat.leb_gt in H
    | H : Nat.ltb _ _ = true |- _ => apply Nat.ltb_lt in H
    | H : Nat.ltb _ _ = false |- _ => apply Nat.ltb_ge in H
    | H : Nat.eqb _ _ = true |- _ => apply Nat.eqb_eq in H
    | H : Nat.eqb _ _ = false |- _ => apply Nat.eqb_neq in H
    end.

(** * Properties *)

(** ** Strings *)

Lemma lower_app (s t : string) : Py.lower (s ++ t) = Py.lower s ++ Py.lower t.
Proof. induction s as [|c s IH]; simpl; [reflexivity | now rewrite IH]. Qed.

Lemma app_length_str (s t : string) :
  String.length (s ++ t) = (String.length s + String.length t)%nat.
Proof. induction s as [|c s IH]; simpl; [reflexivity | now rewrite IH]. Qed.

Lemma str_app_cons (c : ascii) (s t : string) :
  String c s ++ t = String c (s ++ t).
Proof. reflexivity. Qed.

Lemma substring_all (t : string) : substring 0 (String.length t) t = t.
Proof. induction t as [|d t IHt]; simpl; [reflexivity | now rewrite IHt]. Qed.

Lemma substring_suffix (p t : string) :
  substring (String.length p) (String.length t) (p ++ t) = t.
Proof.
  induction p as [|c p IH]; simpl; [apply substring_all | exact IH].
Qed.

Lemma substring_split (s : string) (m : nat) :
  (m <= String.length s)%nat ->
  s = substring 0 m s ++ substring m (String.length s - m) s.
Proof.
  revert m. induction s as [|c s IH]; intros m Hm.
  - destruct m; [reflexivity | simpl in Hm; lia].
  - destruct m as [|m].
    + rewrite Nat.sub_0_r, substring_all. reflexivity.
    + simpl in Hm. simpl substring. simpl String.length.
      rewrite str_app_cons. f_equal. apply IH. lia.
Qed.

(** [endswith] holds exactly of the strings that have the suffix. *)
Lemma endswith_spec (s suffix : string) :
  Py.endswith s suffix = true <-> exists p, s = p ++ suffix.
Proof.
  unfold Py.endswith. split.
  - intros H. apply andb_true_iff in H as [Hle Heq].
    apply Nat.leb_le in Hle. apply String.eqb_eq in Heq.
    exists (substring 0 (String.length s - String.length suffix) s).
    pose proof (substring_split s (String.length s - String.length suffix)
                  ltac:(lia)) as Hs.
    replace (String.length s - (String.length s - String.length suffix))%nat
      with (String.length suffix) in Hs by lia.
    now rewrite Heq in Hs.
  - intros [p ->]. rewrite app_length_str.
    apply andb_true_iff. split; [apply Nat.leb_le; lia|].
    replace (String.length p + String.length suffix - String.length suffix)%nat
      with (String.length p) by lia.
    rewrite substring_suffix. apply String.eqb_refl.
Qed.

Lemma lower_split (s a b : string) :
  Py.lower s = a ++ b -> exists p t, s = p ++ t /\ Py.lower p = a /\ Py.lower t = b.
Proof.
  revert a. induction s as [|c s IH]; intros a H.
  - destruct a as [|d a].
    + change ("" = b) in H. exists "", "". now repeat split.
    + rewrite str_app_cons in H. discriminate.
  - simpl Py.lower in H. destruct a as [|d a].
    + change (String (Py.lower_char c) (Py.lower s) = b) in H.
      exists "", (String c s). now repeat split.
    + rewrite str_app_cons in H. injection H as Hc Hs.
      destruct (IH _ Hs) as (p & t & -> & Hp & Ht).
      exists (String c p), t. rewrite str_app_cons. simpl Py.lower.
      rewrite Hp, Hc. now repeat split.
Qed.

Lemma endswith_lower_ci (name ext : string) :
  Py.endswith (Py.lower name) ext = true <-> ends_with_ci name ext.
Proof.
  rewrite endswith_spec. unfold ends_with_ci. split.
  - intros [q Hq]. destruct (lower_split _ _ _ Hq) as (p & t & -> & _ & Ht).
    eauto.
  - intros (p & t & -> & Ht). exists (Py.lower p).
    now rewrite lower_app, Ht.
Qed.

(** ** The factory and the member lookup *)

Lemma name_to_info_snoc (fl : list ZipInfo) (zi : ZipInfo) :
  name_to_info (fl ++ [zi]) = <[zi_filename zi := zi]> (name_to_info fl).
Proof. unfold name_to_info. now rewrite foldl_app. Qed.

(** The index knows a path exactly when an entry of the central directory
    carries it, and what it returns is such an entry. *)
Lemma name_to_info_Some (fl : list ZipInfo) (name : string) (info : ZipInfo) :
  name_to_info fl !! name = Some info -> In info fl /\ zi_filename info = name.
Proof.
  induction fl as [|zi fl IH] using rev_ind.
  - unfold name_to_info. simpl. now rewrite lookup_empty.
  - rewrite name_to_info_snoc, lookup_insert. case_decide as Hd.
    + intros [= <-]. split; [apply in_or_app; right; now left | exact Hd].
    + intros H. destruct (IH H) as [Hin Hn]. split; [|exact Hn].
      apply in_or_app. now left.
Qed.


(** The three outcomes of [_load_file_info] on a stored object. *)
Lemma load_found pid record base zp fl info w :
  ObjectVersion.storage (PreviewFile.file base) = Stored (Central fl) ->
  name_to_info fl !! zp = Some info ->
  ZipExtractedFile.__init__ pid record base zp w =
    (Ok (ZipExtractedFile.set_file_info
           (<["compressed_size" := compress_size info]>
              {["size" := file_size info]})
           {| ZipExtractedFile.file := PreviewFile.file base;
              ZipExtractedFile.pid := pid; ZipExtractedFile.record := record;
              ZipExtractedFile.zip_fileobj := base;
              ZipExtractedFile.zip_path := zp;
              ZipExtractedFile._file_info := None;
              ZipExtractedFile._zipfile_ref := None;
              ZipExtractedFile._zip_fp_ref := None |}),
     {| next_id := S (next_id w);
        log := log w ++ [Acquire (Handle (next_id w));
                         Acquire (Index (next_id w));
                         Lookup (next_id w) zp;
                         Release (Index (next_id w));
                         Release (Handle (next_id w))] |}).
Proof.
  intros Hst Hlk.
  unfold ZipExtractedFile.__init__, ZipExtractedFile._load_file_info,
    PreviewFile.open, storage_open, ZipFile_new, getinfo, ZipFile_close,
    FileHandle_close.
  run. cbn. rewrite Hst. cbn. rewrite Hlk. cbn.
  rewrite <- !app_assoc. reflexivity.
Qed.

Lemma load_missing pid record base zp fl w :
  ObjectVersion.storage (PreviewFile.file base) = Stored (Central fl) ->
  name_to_info fl !! zp = None ->
  ZipExtractedFile.__init__ pid record base zp w =
    (Raise (FileNotFoundError ("File '" ++ zp ++ "' not found in ZIP archive")),
     {| next_id := S (next_id w);
        log := log w ++ [Acquire (Handle (next_id w));
                         Acquire (Index (next_id w));
                         Lookup (next_id w) zp;
                         Release (Index (next_id w));
                         Release (Handle (next_id w))] |}).
Proof.
  intros Hst Hlk.
  unfold ZipExtractedFile.__init__, ZipExtractedFile._load_file_info,
    PreviewFile.open, storage_open, ZipFile_new, getinfo, ZipFile_close,
    FileHandle_close.
  run. cbn. rewrite Hst. cbn. rewrite Hlk. cbn.
  rewrite <- !app_assoc. reflexivity.
Qed.


Lemma load_corrupt pid record base zp e w :
  ObjectVersion.storage (PreviewFile.file base) = Stored (Corrupt e) ->
  is_Exception e = true -> is_KeyError e = false ->
  exists f, ZipExtractedFile.__init__ pid record base zp w =
              (Ok f, {| next_id := S (next_id w);
                        log := log w ++ [Acquire (Handle (next_id w));
                                         Release (Handle (next_id w))] |})
            /\ ZipExtractedFile._file_info f = Some {["size" := 0]}.
Proof.
  intros Hst He Hk.
  unfold ZipExtractedFile.__init__, ZipExtractedFile._load_file_info,
    PreviewFile.open, storage_open, ZipFile_new, FileHandle_close.
  run. cbn. rewrite Hst. cbn. rewrite Hk, He. cbn.
  rewrite <- !app_assoc. eauto.
Qed.

Lemma size_of_info (f : ZipExtractedFile.t) (c s : Z) :
  ZipExtractedFile.size
    (ZipExtractedFile.set_file_info
       (<["compressed_size" := c]> {["size" := s]}) f) = Ok s.
Proof.
  unfold ZipExtractedFile.size. cbn.
  now rewrite lookup_insert_ne, lookup_singleton_eq.
Qed.

Lemma size_degraded (f : ZipExtractedFile.t) :
  ZipExtractedFile._file_info f = Some {["size" := 0]} ->
  ZipExtractedFile.size f = Ok 0.
Proof.
  intros H. unfold ZipExtractedFile.size. rewrite H.
  now rewrite lookup_singleton_eq.
Qed.

(** C1. With a non-empty member path the factory looks at the base name of
    the key only: when it does not end in [.zip] (compared in lower case) the
    call raises [ValueError "Container file must be a ZIP archive"] and the
    world is untouched, so no container was opened and nothing was looked up;
    when it does, the call is the construction of the [ZipExtractedFile], and
    on a readable archive that construction asks the index for the member
    path. *)
Theorem C1_extension_gate (pid : PID) (record : RecordT)
    (fileobj : ObjectVersion.t) (zp : string) (w : World) :
  zp <> "" ->
  (~ ends_with_ci (Py.basename (ObjectVersion.key fileobj)) ".zip" ->
     create_preview_file pid record fileobj (Some zp) w =
       (Raise (ValueError "Container file must be a ZIP archive"), w))
  /\
  (ends_with_ci (Py.basename (ObjectVersion.key fileobj)) ".zip" ->
     create_preview_file pid record fileobj (Some zp) w =
       (f ← ZipExtractedFile.__init__ pid record
              (PreviewFile.__init__ pid record fileobj) zp;
        mret (Extracted f)) w
     /\ forall fl,
          ObjectVersion.storage fileobj = Stored (Central fl) ->
          In (Lookup (next_id w) zp)
             (log (snd (create_preview_file pid record fileobj (Some zp) w)))).
Proof.
  intros Hzp.
  assert (Ht : Py.truthy zp = true) by (destruct zp; [congruence | reflexivity]).
  unfold create_preview_file. rewrite Ht.
  unfold PreviewFile.filename. cbn [PreviewFile.__init__ PreviewFile.file].
  split; intros Hci.
  - destruct (Py.endswith _ ".zip") eqn:E; [|reflexivity].
    exfalso. apply Hci. now apply endswith_lower_ci.
  - apply endswith_lower_ci in Hci. rewrite Hci. cbn [negb].
    split; [reflexivity|].
    intros fl Hst.
    set (base := PreviewFile.__init__ pid record fileobj).
    destruct (name_to_info fl !! zp) as [info|] eqn:Hlk.
    + run. rewrite (load_found pid record base zp fl info w Hst Hlk).
      cbn. apply in_or_app. right. cbn. tauto.
    + run. rewrite (load_missing pid record base zp fl w Hst Hlk).
      cbn. apply in_or_app. right. cbn. tauto.
Qed.

Lemma C1_extension_gate_witness :
  create_preview_file sample_pid "rec"
    (stored "notes.txt" (Stored (Central [sample_png]))) (Some "x") world0 =
    (Raise (ValueError "Container file must be a ZIP archive"), world0)
  /\ In (Lookup 0 "folder/image.png")
        (log (snd (create_preview_file sample_pid "rec" sample_archive
                     (Some "folder/image.png") world0))).
Proof.
  split.
  - apply (C1_extension_gate sample_pid "rec"
             (stored "notes.txt" (Stored (Central [sample_png]))) "x" world0).
    + discriminate.
    + intros H. apply endswith_lower_ci in H. vm_compute in H. discriminate.
  - assert (Hci : ends_with_ci
                    (Py.basename (ObjectVersion.key sample_archive)) ".zip")
      by (apply endswith_lower_ci; reflexivity).
    destruct (C1_extension_gate sample_pid "rec" sample_archive
                "folder/image.png" world0 ltac:(discriminate)) as [_ H].
    destruct (H Hci) as [_ Hlog].
    apply (Hlog [sample_png]). reflexivity.
Defined.

(** C10. An empty member path is falsy: the factory returns the direct
    [PreviewFile] of the stored object whatever its name is, raises nothing,
    and leaves the world as it was (no container opened, no lookup). *)
Theorem C10_empty_member_path (pid : PID) (record : RecordT)
    (fileobj : ObjectVersion.t) (w : World) :
  create_preview_file pid record fileobj (Some "") w =
    (Ok (Direct (PreviewFile.__init__ pid record fileobj)), w)
  /\ create_preview_file pid record fileobj (Some "") w =
     create_preview_file pid record fileobj None w.
Proof. split; reflexivity. Qed.

(** C2. On a container whose index has the member path, building the
    [ZipExtractedFile] succeeds and [size] is the [file_size] the index
    gives; on one whose index lacks it, building raises
    [FileNotFoundError "File '<path>' not found in ZIP archive"] instead of
    falling back to the size-0 metadata. *)
Theorem C2_member_lookup (pid : PID) (record : RecordT)
    (base : PreviewFile.t) (zp : string) (fl : list ZipInfo) (w : World) :
  ObjectVersion.storage (PreviewFile.file base) = Stored (Central fl) ->
  (forall info, name_to_info fl !! zp = Some info ->
     exists f w',
       ZipExtractedFile.__init__ pid record base zp w = (Ok f, w')
       /\ ZipExtractedFile.size f = Ok (file_size info)
       /\ ZipExtractedFile.zip_path f = zp)
  /\
  (name_to_info fl !! zp = None ->
     exists w',
       ZipExtractedFile.__init__ pid record base zp w =
         (Raise (FileNotFoundError
                   ("File '" ++ zp ++ "' not found in ZIP archive")), w')).
Proof.
  intros Hst. split.
  - intros info Hlk. eexists _, _. split; [|split].
    + apply (load_found pid record base zp fl info w Hst Hlk).
    + apply size_of_info.
    + reflexivity.
  - intros Hlk. eexists. apply (load_missing pid record base zp fl w Hst Hlk).
Qed.

Lemma C2_member_lookup_witness :
  (exists f w',
     ZipExtractedFile.__init__ sample_pid "rec"
       (PreviewFile.__init__ sample_pid "rec" sample_archive)
       "folder/image.png" world0 = (Ok f, w')
     /\ ZipExtractedFile.size f = Ok 1234
     /\ ZipExtractedFile.zip_path f = "folder/image.png")
  /\
  (exists w',
     ZipExtractedFile.__init__ sample_pid "rec"
       (PreviewFile.__init__ sample_pid "rec" sample_archive)
       "folder/missing.png" world0 =
       (Raise (FileNotFoundError
                 "File 'folder/missing.png' not found in ZIP archive"), w')).
Proof.
  split.
  - apply (proj1 (C2_member_lookup sample_pid "rec"
                    (PreviewFile.__init__ sample_pid "rec" sample_archive)
                    "folder/image.png" [sample_png] world0 eq_refl) sample_png).
    reflexivity.
  - apply (proj2 (C2_member_lookup sample_pid "rec"
                    (PreviewFile.__init__ sample_pid "rec" sample_archive)
                    "folder/missing.png" [sample_png] world0 eq_refl)).
    reflexivity.
Defined.





(** ** The streaming reader *)

(** Every trigger is [_ensure_open] followed by the operation on
    [self._stream]. *)
Lemma call_unfold (op : trigger) st :
  call op st =
    match ZipFileStream._ensure_open st with
    | (Ok _, st1) => ZipFileStream.on_stream (stream_op op) st1
    | (Raise e, st1) => (Raise e, st1)
    end.
Proof.
  destruct op; unfold call, stream_op, ZipFileStream.read,
    ZipFileStream.readline, ZipFileStream.readlines, ZipFileStream.seek,
    ZipFileStream.tell, ZipFileStream.__iter__, fmapM,
    ZipFileStream.on_stream; run;
    destruct (ZipFileStream._ensure_open st) as [[[]|e] [self1 w1]];
    try reflexivity;
    destruct (ZipFileStream._stream self1) as [s|]; try reflexivity;
    match goal with
    | |- context [match ?m s with _ => _ end] =>
        destruct (m s) as [[?|?] ?]
    end; reflexivity.
Qed.

(** The stream operations move the position only. *)
Lemma stream_op_frame (op : trigger) (s s' : ZipExtFile) (r : Res value) :
  stream_op op s = (r, s') ->
  zef_id s' = zef_id s /\ zef_data s' = zef_data s
  /\ zef_closed s' = zef_closed s.
Proof.
  destruct op; unfold stream_op, fmapM, ZipExtFile_ops.read,
    ZipExtFile_ops.readline, ZipExtFile_ops.readlines, ZipExtFile_ops.seek,
    ZipExtFile_ops.tell, ZipExtFile_ops.iter, ZipExtFile_ops.guard_open,
    ZipExtFile_ops.advance;
    run; destruct (zef_closed s) eqn:Hc;
    try (intros [= <- <-]; now rewrite ?Hc).
  destruct (negb _); intros [= <- <-]; now rewrite ?Hc.
Qed.

Lemma on_stream_frame (op : trigger) self w r self' w' :
  ZipFileStream.on_stream (stream_op op) (self, w) = (r, (self', w')) ->
  w' = w
  /\ ZipFileStream._opened self' = ZipFileStream._opened self
  /\ ZipFileStream._zip_fp self' = ZipFileStream._zip_fp self
  /\ ZipFileStream._zipfile self' = ZipFileStream._zipfile self
  /\ ZipFileStream.zip_extracted_file self'
     = ZipFileStream.zip_extracted_file self
  /\ forall s, ZipFileStream._stream self = Some s ->
       exists s', ZipFileStream._stream self' = Some s'
                  /\ zef_id s' = zef_id s /\ zef_data s' = zef_data s
                  /\ zef_closed s' = zef_closed s.
Proof.
  unfold ZipFileStream.on_stream.
  destruct (ZipFileStream._stream self) as [s|] eqn:Hs.
  - destruct (stream_op op s) as [r0 s0] eqn:Hop.
    intros [= <- <- <-]. cbn. repeat split; try reflexivity.
    intros s1 [= <-]. exists s0. split; [reflexivity|].
    exact (stream_op_frame op s s0 r0 Hop).
  - intros [= <- <- <-]. repeat split; try reflexivity.
    intros s [=].
Qed.

Lemma ensure_open_opened (self : ZipFileStream.t) (w : World) :
  ZipFileStream._opened self = true ->
  ZipFileStream._ensure_open (self, w) = (Ok tt, (self, w)).
Proof.
  intros H. unfold ZipFileStream._ensure_open. run. now rewrite H.
Qed.

Lemma ensure_open_unopened (self : ZipFileStream.t) (w : World) fl info :
  ZipFileStream._opened self = false ->
  ObjectVersion.storage
    (PreviewFile.file
       (ZipExtractedFile.zip_fileobj (ZipFileStream.zip_extracted_file self)))
    = Stored (Central fl) ->
  name_to_info fl
    !! ZipExtractedFile.zip_path (ZipFileStream.zip_extracted_file self)
    = Some info ->
  zi_open_error info = None ->
  ZipFileStream._ensure_open (self, w) =
    (Ok tt,
     (opened_on (next_id w) fl info self,
      {| next_id := S (next_id w);
         log := log w ++
                acquisitions (next_id w)
                  (ZipExtractedFile.zip_path
                     (ZipFileStream.zip_extracted_file self)) |})).
Proof.
  intros Hop Hst Hlk Herr.
  unfold ZipFileStream._ensure_open, PreviewFile.open, storage_open,
    ZipFile_new, ZipFile_open, getinfo.
  run. rewrite Hop. cbn. rewrite Hst. cbn. rewrite Hlk. cbn.
  rewrite Herr. cbn. rewrite <- !app_assoc. reflexivity.
Qed.

(** A trigger on a reader that is already open leaves the world as it is:
    nothing is acquired, released or looked up. *)
Lemma call_opened (op : trigger) (self : ZipFileStream.t) (w : World) :
  ZipFileStream._opened self = true ->
  exists r self',
    call op (self, w) = (r, (self', w))
    /\ ZipFileStream._opened self' = true
    /\ ZipFileStream._zip_fp self' = ZipFileStream._zip_fp self
    /\ ZipFileStream._zipfile self' = ZipFileStream._zipfile self.
Proof.
  intros H. rewrite call_unfold, (ensure_open_opened self w H).
  destruct (ZipFileStream.on_stream (stream_op op) (self, w))
    as [r [self' w']] eqn:E.
  destruct (on_stream_frame op self w r self' w' E) as (-> & Ho & Hf & Hz & _).
  exists r, self'. rewrite Ho, Hf, Hz. auto.
Qed.

(** The first trigger on a reader that is not open runs the open sequence
    and then works on the stream it opened. *)
Lemma first_trigger (zef : ZipExtractedFile.t) (fl : list ZipInfo)
    (info : ZipInfo) (w : World) (op : trigger) :
  ObjectVersion.storage (PreviewFile.file (ZipExtractedFile.zip_fileobj zef))
    = Stored (Central fl) ->
  name_to_info fl !! ZipExtractedFile.zip_path zef = Some info ->
  zi_open_error info = None ->
  exists r self1,
    call op (ZipExtractedFile_open zef, w) =
      (r, (self1,
           {| next_id := S (next_id w);
              log := log w ++ acquisitions (next_id w)
                                (ZipExtractedFile.zip_path zef) |}))
    /\ ZipFileStream._opened self1 = true
    /\ ZipFileStream._zip_fp self1
       = Some {| fh_id := next_id w; fh_content := Central fl |}
    /\ ZipFileStream._zipfile self1
       = Some {| zf_id := next_id w; filelist := fl;
                 NameToInfo := name_to_info fl |}
    /\ (exists s, ZipFileStream._stream self1 = Some s
                  /\ zef_id s = next_id w /\ zef_data s = zi_data info)
    /\ ZipFileStream.zip_extracted_file self1 = zef.
Proof.
  intros Hst Hlk Herr.
  rewrite call_unfold.
  rewrite (ensure_open_unopened (ZipExtractedFile_open zef) w fl info
             eq_refl Hst Hlk Herr).
  destruct (ZipFileStream.on_stream (stream_op op) _) as [r [self1 w1]] eqn:E.
  destruct (on_stream_frame op _ _ r self1 w1 E)
    as (-> & Ho & Hf & Hz & Hx & Hs).
  destruct (Hs _ eq_refl) as (s' & Hs' & Hid & Hdata & _).
  exists r, self1. split; [reflexivity|].
  split; [exact Ho|]. split; [exact Hf|]. split; [exact Hz|].
  split; [exists s'; auto | exact Hx].
Qed.

(** C4. A reader just built holds no container handle, no [ZipFile] and no
    member stream and is not open.  The first [read], [readline],
    [readlines], [seek], [tell] or iteration acquires the handle, then the
    [ZipFile] on it, then the member stream (found by its path), and nothing
    else; any such call made while the reader is open leaves the world
    untouched. *)
Theorem C4_lazy_open (zef : ZipExtractedFile.t) (fl : list ZipInfo)
    (info : ZipInfo) (w : World) (op : trigger) :
  ObjectVersion.storage (PreviewFile.file (ZipExtractedFile.zip_fileobj zef))
    = Stored (Central fl) ->
  name_to_info fl !! ZipExtractedFile.zip_path zef = Some info ->
  zi_open_error info = None ->
  let self0 := ZipExtractedFile_open zef in
  let n := next_id w in
  (ZipFileStream._zip_fp self0 = None
   /\ ZipFileStream._zipfile self0 = None
   /\ ZipFileStream._stream self0 = None
   /\ ZipFileStream._opened self0 = false)
  /\ exists r self1 w1,
       call op (self0, w) = (r, (self1, w1))
       /\ log w1
          = (log w ++ acquisitions n (ZipExtractedFile.zip_path zef))%list
       /\ ZipFileStream._zip_fp self1
          = Some {| fh_id := n; fh_content := Central fl |}
       /\ ZipFileStream._zipfile self1
          = Some {| zf_id := n; filelist := fl;
                    NameToInfo := name_to_info fl |}
       /\ (exists s, ZipFileStream._stream self1 = Some s /\ zef_id s = n
                     /\ zef_data s = zi_data info)
       /\ ZipFileStream._opened self1 = true
       /\ forall op2, exists r2 self2,
            call op2 (self1, w1) = (r2, (self2, w1))
            /\ ZipFileStream._opened self2 = true.
Proof.
  intros Hst Hlk Herr self0 n.
  split; [now repeat split|].
  destruct (first_trigger zef fl info w op Hst Hlk Herr)
    as (r & self1 & Hc & Ho & Hf & Hz & (s & Hs & Hid & Hdata) & _).
  eexists r, self1, _. split; [exact Hc|].
  split; [reflexivity|].
  split; [exact Hf|]. split; [exact Hz|].
  split; [exists s; auto|].
  split; [exact Ho|].
  intros op2.
  destruct (call_opened op2 self1
              {| next_id := S (next_id w);
                 log := log w ++ acquisitions (next_id w)
                          (ZipExtractedFile.zip_path zef) |} Ho)
    as (r2 & self2 & Hc2 & Ho2 & _).
  exists r2, self2. auto.
Qed.

Lemma C4_lazy_open_witness :
  exists r self1 w1,
    call (Tread (-1)) (ZipExtractedFile_open sample_zef, world0)
      = (r, (self1, w1))
    /\ log w1 = acquisitions 0 "folder/image.png"
    /\ ZipFileStream._opened self1 = true.
Proof.
  destruct (C4_lazy_open sample_zef [sample_png] sample_png world0 (Tread (-1))
              eq_refl eq_refl eq_refl)
    as (_ & r & self1 & w1 & Hc & Hl & _ & _ & _ & Ho & _).
  exists r, self1, w1. auto.
Defined.

(** *** [close] *)

Lemma close_opened (self : ZipFileStream.t) (w : World) s zf fp :
  ZipFileStream._opened self = true ->
  ZipFileStream._stream self = Some s ->
  ZipFileStream._zipfile self = Some zf ->
  ZipFileStream._zip_fp self = Some fp ->
  exists self',
    ZipFileStream.close (self, w) =
      (Ok tt, (self', {| next_id := next_id w;
                         log := log w ++ releases s zf fp |}))
    /\ ZipFileStream._opened self' = false
    /\ ZipFileStream.zip_extracted_file self'
       = ZipFileStream.zip_extracted_file self.
Proof.
  intros Ho Hs Hz Hf.
  unfold ZipFileStream.close, ZipExtFile_close, ZipFile_close,
    FileHandle_close.
  run. rewrite Ho, Hs, Hz, Hf. cbn. rewrite <- !app_assoc.
  eexists. split; [reflexivity|]. split; reflexivity.
Qed.

Lemma close_unopened (self : ZipFileStream.t) (w : World) :
  ZipFileStream._opened self = false ->
  ZipFileStream.close (self, w) = (Ok tt, (self, w)).
Proof. intros H. unfold ZipFileStream.close. run. now rewrite H. Qed.

(** [close] never raises and leaves the reader not open. *)
Lemma close_total (st : ZipFileStream.t * World) :
  exists st',
    ZipFileStream.close st = (Ok tt, st')
    /\ ZipFileStream._opened (fst st') = false
    /\ ZipFileStream.zip_extracted_file (fst st')
       = ZipFileStream.zip_extracted_file (fst st).
Proof.
  destruct st as [self w].
  destruct (ZipFileStream._opened self) eqn:Ho.
  - unfold ZipFileStream.close, ZipExtFile_close, ZipFile_close,
      FileHandle_close.
    run. rewrite Ho.
    destruct (ZipFileStream._stream self), (ZipFileStream._zipfile self),
      (ZipFileStream._zip_fp self); cbn;
      eexists; (split; [reflexivity | split; reflexivity]).
  - exists (self, w). split; [now apply close_unopened | now split].
Qed.

(** C5. On an open reader [close] calls [close()] on the member stream, then
    on the [ZipFile], then on the container handle, and on nothing else.
    [close] never raises; a second [close] changes nothing and calls
    [close()] on nothing; and [close] on a reader that was never read does
    nothing at all. *)
Theorem C5_close (self : ZipFileStream.t) (w : World) :
  (forall s zf fp,
     ZipFileStream._opened self = true ->
     ZipFileStream._stream self = Some s ->
     ZipFileStream._zipfile self = Some zf ->
     ZipFileStream._zip_fp self = Some fp ->
     exists self',
       ZipFileStream.close (self, w) =
         (Ok tt, (self', {| next_id := next_id w;
                            log := log w ++ releases s zf fp |})))
  /\ (exists st1,
        ZipFileStream.close (self, w) = (Ok tt, st1)
        /\ ZipFileStream.close st1 = (Ok tt, st1))
  /\ (forall zef,
        ZipFileStream.close (ZipExtractedFile_open zef, w)
        = (Ok tt, (ZipExtractedFile_open zef, w))).
Proof.
  split; [|split].
  - intros s zf fp Ho Hs Hz Hf.
    destruct (close_opened self w s zf fp Ho Hs Hz Hf) as (self' & H & _).
    eauto.
  - destruct (close_total (self, w)) as ([self1 w1] & H & Ho & _).
    exists (self1, w1). split; [exact H | now apply close_unopened].
  - intros zef. now apply close_unopened.
Qed.

Lemma C5_close_witness :
  exists self',
    ZipFileStream.close
      (sample_open_reader,
       {| next_id := 1; log := acquisitions 0 "folder/image.png" |}) =
      (Ok tt,
       (self',
        {| next_id := 1;
           log := acquisitions 0 "folder/image.png" ++
                  [Release (Member 0); Release (Index 0);
                   Release (Handle 0)] |})).
Proof.
  apply (proj1 (C5_close sample_open_reader
                  {| next_id := 1; log := acquisitions 0 "folder/image.png" |})
           {| zef_id := 0%nat; zef_data := zi_data sample_png;
              zef_pos := 0%nat; zef_closed := false |}
           {| zf_id := 0%nat; filelist := [sample_png];
              NameToInfo := name_to_info [sample_png] |}
           {| fh_id := 0%nat; fh_content := Central [sample_png] |});
    reflexivity.
Defined.

(** *** After [close] *)

(** C6, as stated, fails: on [sample_archive], [read(-1)] after [close()]
    returns the member's bytes again, from a second handle. *)
Lemma C6_no_reopen_counterexample :
  ~ no_reopen_after_close sample_zef world0.
Proof.
  intros H.
  destruct (call (Tread (-1)) (ZipExtractedFile_open sample_zef, world0))
    as [r1 st1] eqn:E1.
  destruct (ZipFileStream.close st1) as [c st2] eqn:E2.
  destruct (call (Tread (-1)) st2) as [r2 st3] eqn:E3.
  vm_compute in E1. injection E1 as <- <-.
  vm_compute in E2. injection E2 as <- <-.
  specialize (H (Tread (-1)) _ _ _ (Tread (-1)) r2 st3 eq_refl eq_refl E3).
  vm_compute in E3. injection E3 as <- <-.
  destruct H as [[e He] _]. discriminate He.
Qed.

(** A trigger on a reader that is not open opens the member and works on
    its stream from position 0. *)
Lemma trigger_unopened (self : ZipFileStream.t) (w : World)
    (fl : list ZipInfo) (info : ZipInfo) (op : trigger) :
  ZipFileStream._opened self = false ->
  ObjectVersion.storage
    (PreviewFile.file
       (ZipExtractedFile.zip_fileobj (ZipFileStream.zip_extracted_file self)))
    = Stored (Central fl) ->
  name_to_info fl
    !! ZipExtractedFile.zip_path (ZipFileStream.zip_extracted_file self)
    = Some info ->
  zi_open_error info = None ->
  call op (self, w) =
    (fst (stream_op op (fresh_stream (next_id w) info)),
     (ZipFileStream.set_stream
        (Some (snd (stream_op op (fresh_stream (next_id w) info))))
        (opened_on (next_id w) fl info self),
      {| next_id := S (next_id w);
         log := log w ++
                acquisitions (next_id w)
                  (ZipExtractedFile.zip_path
                     (ZipFileStream.zip_extracted_file self)) |})).
Proof.
  intros Ho Hst Hlk Herr.
  rewrite call_unfold, (ensure_open_unopened self w fl info Ho Hst Hlk Herr).
  unfold ZipFileStream.on_stream.
  cbn [opened_on ZipFileStream._stream]. fold (fresh_stream (next_id w) info).
  now destruct (stream_op op (fresh_stream (next_id w) info)).
Qed.

(** C6, amended. [close] puts the reader back in the state it was built in
    as far as [_opened] goes, and the next trigger runs the whole open
    sequence again on a new handle: the log of a trigger, a [close] and
    another trigger is the first acquisitions, the three releases, and a
    second round of acquisitions.  The second trigger does not fail because
    of the [close]: it returns what the operation returns on a stream of the
    member that was just opened, at position 0 ([read(-1)] the whole member,
    [tell()] 0), and that stream is the one the reader holds afterwards. *)
Theorem C6_close_then_reopen (zef : ZipExtractedFile.t) (fl : list ZipInfo)
    (info : ZipInfo) (w : World) (op1 op2 : trigger) :
  ObjectVersion.storage (PreviewFile.file (ZipExtractedFile.zip_fileobj zef))
    = Stored (Central fl) ->
  name_to_info fl !! ZipExtractedFile.zip_path zef = Some info ->
  zi_open_error info = None ->
  let n := next_id w in
  let p := ZipExtractedFile.zip_path zef in
  exists r1 st1 st2 r2 st3,
    call op1 (ZipExtractedFile_open zef, w) = (r1, st1)
    /\ ZipFileStream._opened (fst st1) = true
    /\ ZipFileStream.close st1 = (Ok tt, st2)
    /\ ZipFileStream._opened (fst st2) = false
    /\ call op2 st2 = (r2, st3)
    /\ ZipFileStream._opened (fst st3) = true
    /\ log (snd st3)
       = (log w ++ acquisitions n p
            ++ [Release (Member n); Release (Index n); Release (Handle n)]
            ++ acquisitions (S n) p)%list
    /\ r1 = fst (stream_op op1 (fresh_stream n info))
    /\ r2 = fst (stream_op op2 (fresh_stream (S n) info))
    /\ ZipFileStream._stream (fst st3)
       = Some (snd (stream_op op2 (fresh_stream (S n) info)))
    /\ (op2 = Tread (-1) -> r2 = Ok (VBytes (zi_data info)))
    /\ (op2 = Ttell -> r2 = Ok (VInt 0)).
Proof.
  intros Hst Hlk Herr n p.
  pose proof (trigger_unopened (ZipExtractedFile_open zef) w fl info op1
                eq_refl Hst Hlk Herr) as E1.
  set (s1 := snd (stream_op op1 (fresh_stream (next_id w) info))) in E1.
  assert (Hs1 : zef_id s1 = n).
  { destruct (stream_op op1 (fresh_stream (next_id w) info)) as [r s] eqn:E.
    destruct (stream_op_frame op1 _ s r E) as (Hid & _). exact Hid. }
  set (self1 := ZipFileStream.set_stream (Some s1)
                  (opened_on (next_id w) fl info (ZipExtractedFile_open zef)))
    in E1.
  destruct (close_opened self1
              {| next_id := S n; log := log w ++ acquisitions n p |}
              s1 {| zf_id := n; filelist := fl;
                    NameToInfo := name_to_info fl |}
              {| fh_id := n; fh_content := Central fl |}
              eq_refl eq_refl eq_refl eq_refl) as (self2 & E2 & Ho2 & Hx2).
  cbn in Hx2.
  set (w2 := {| next_id := S n;
                log := (log w ++ acquisitions n p) ++
                       releases s1
                         {| zf_id := n; filelist := fl;
                            NameToInfo := name_to_info fl |}
                         {| fh_id := n; fh_content := Central fl |} |}).
  assert (Hst2 : ObjectVersion.storage
                   (PreviewFile.file
                      (ZipExtractedFile.zip_fileobj
                         (ZipFileStream.zip_extracted_file self2)))
                 = Stored (Central fl)) by now rewrite Hx2.
  assert (Hlk2 : name_to_info fl
                   !! ZipExtractedFile.zip_path
                        (ZipFileStream.zip_extracted_file self2)
                 = Some info) by now rewrite Hx2.
  pose proof (trigger_unopened self2 w2 fl info op2 Ho2 Hst2 Hlk2 Herr) as E3.
  eexists _, _, _, _, _.
  split; [exact E1|]. split; [reflexivity|]. split; [exact E2|].
  split; [exact Ho2|]. split; [exact E3|]. split; [reflexivity|].
  split.
  { cbn. unfold releases. rewrite Hs1, Hx2. cbn.
    rewrite <- !app_assoc. reflexivity. }
  split; [reflexivity|]. split; [reflexivity|]. split; [reflexivity|].
  split; intros ->; reflexivity.
Qed.

Lemma C6_close_then_reopen_witness :
  exists r1 st1 st2 r2 st3,
    call (Tread 2) (ZipExtractedFile_open sample_zef, world0) = (r1, st1)
    /\ ZipFileStream._opened (fst st1) = true
    /\ ZipFileStream.close st1 = (Ok tt, st2)
    /\ ZipFileStream._opened (fst st2) = false
    /\ call Ttell st2 = (r2, st3)
    /\ ZipFileStream._opened (fst st3) = true
    /\ log (snd st3)
       = (acquisitions 0 "folder/image.png"
            ++ [Release (Member 0); Release (Index 0); Release (Handle 0)]
            ++ acquisitions 1 "folder/image.png")%list
    /\ r1 = Ok (VBytes [Byte.x50; Byte.x4e])
    /\ r2 = Ok (VInt 0).
Proof.
  destruct (C6_close_then_reopen sample_zef [sample_png] sample_png world0
              (Tread 2) Ttell eq_refl eq_refl eq_refl)
    as (r1 & st1 & st2 & r2 & st3 & H1 & H2 & H3 & H4 & H5 & H6 & H7 & H8
        & _ & _ & _ & H9).
  exists r1, st1, st2, r2, st3.
  split; [exact H1|]. split; [exact H2|]. split; [exact H3|].
  split; [exact H4|]. split; [exact H5|]. split; [exact H6|].
  split; [exact H7|]. split; [exact H8 | exact (H9 eq_refl)].
Defined.

(** *** A failure in the middle of the open sequence *)

(** When [ZipFile(...)] raises on the handle just opened, [_ensure_open]
    raises the same exception with the handle stored in [_zip_fp], not
    closed, and [_opened] still false. *)
Lemma ensure_open_corrupt (self : ZipFileStream.t) (w : World) (e : exn) :
  ZipFileStream._opened self = false ->
  ObjectVersion.storage
    (PreviewFile.file
       (ZipExtractedFile.zip_fileobj (ZipFileStream.zip_extracted_file self)))
    = Stored (Corrupt e) ->
  ZipFileStream._ensure_open (self, w) =
    (Raise e,
     (ZipFileStream.set_zip_fp
        (Some {| fh_id := next_id w; fh_content := Corrupt e |}) self,
      {| next_id := S (next_id w);
         log := log w ++ [Acquire (Handle (next_id w))] |})).
Proof.
  intros Ho Hst.
  unfold ZipFileStream._ensure_open, PreviewFile.open, storage_open,
    ZipFile_new.
  run. rewrite Ho. cbn. rewrite Hst. reflexivity.
Qed.

(** When the member cannot be opened (here: it is not in the index),
    [_ensure_open] raises with the handle and the [ZipFile] stored, neither
    closed, and [_opened] still false. *)
Lemma ensure_open_member_missing (self : ZipFileStream.t) (w : World) fl :
  ZipFileStream._opened self = false ->
  ObjectVersion.storage
    (PreviewFile.file
       (ZipExtractedFile.zip_fileobj (ZipFileStream.zip_extracted_file self)))
    = Stored (Central fl) ->
  name_to_info fl
    !! ZipExtractedFile.zip_path (ZipFileStream.zip_extracted_file self)
    = None ->
  exists e self',
    ZipFileStream._ensure_open (self, w) =
      (Raise e,
       (self',
        {| next_id := S (next_id w);
           log := log w ++
                  [Acquire (Handle (next_id w)); Acquire (Index (next_id w));
                   Lookup (next_id w)
                     (ZipExtractedFile.zip_path
                        (ZipFileStream.zip_extracted_file self))] |}))
    /\ ZipFileStream._opened self' = false.
Proof.
  intros Ho Hst Hlk.
  unfold ZipFileStream._ensure_open, PreviewFile.open, storage_open,
    ZipFile_new, ZipFile_open, getinfo.
  run. rewrite Ho. cbn. rewrite Hst. cbn. rewrite Hlk. cbn.
  rewrite <- !app_assoc. eexists _, _. split; [reflexivity | exact Ho].
Qed.

(** C3 fails on the code.  [broken.zip] can be opened but is not a ZIP
    archive.  The factory accepts it with size 0; the first [read] of the
    stream it returns opens handle 1, fails in [ZipFile(...)] with
    [BadZipFile], and propagates: handle 1 was acquired and [close()] was
    never called on it.  The reader is left not open, which makes a later
    [close()] (and [__del__]) skip the handle as well. *)
Theorem C3_partial_open_leaks_handle :
  exists zef w0 self1 w1,
    create_preview_file sample_pid "rec" sample_corrupt (Some "a.txt") world0
      = (Ok (Extracted zef), w0)
    /\ ZipFileStream.read (-1) (ZipExtractedFile_open zef, w0)
       = (Raise (BadZipFile "File is not a zip file"), (self1, w1))
    /\ log w1 = (log w0 ++ [Acquire (Handle 1)])%list
    /\ count_occ event_eq_dec (log w1) (Release (Handle 1)) = 0%nat
    /\ ZipFileStream._opened self1 = false
    /\ ZipFileStream._zip_fp self1
       = Some {| fh_id := 1;
                 fh_content := Corrupt (BadZipFile "File is not a zip file") |}
    /\ ZipFileStream.close (self1, w1) = (Ok tt, (self1, w1))
    /\ ZipFileStream.__del__ (self1, w1) = (Ok tt, (self1, w1)).
Proof.
  eexists _, _, _, _.
  split; [vm_compute; reflexivity|].
  split; [vm_compute; reflexivity|].
  repeat split.
Qed.

(** *** Scoped use *)

(** When [_ensure_open] returns, the reader is open. *)
Lemma ensure_open_ok (self : ZipFileStream.t) (w : World) u st :
  ZipFileStream._ensure_open (self, w) = (Ok u, st) ->
  ZipFileStream._opened (fst st) = true.
Proof.
  destruct (ZipFileStream._opened self) eqn:Ho.
  - rewrite (ensure_open_opened self w Ho). now intros [= <- <-].
  - unfold ZipFileStream._ensure_open, PreviewFile.open, storage_open,
      ZipFile_new, ZipFile_open, getinfo.
    run. rewrite Ho. cbn.
    destruct (ObjectVersion.storage _) as [e|[e|fl]]; cbn; try discriminate.
    destruct (name_to_info fl !! _) as [info|]; cbn; try discriminate.
    destruct (zi_open_error info); cbn; try discriminate.
    now intros [= <- <-].
Qed.

(** C8. Entering the scope runs [_ensure_open] (which does nothing on an
    open reader) and hands the reader itself to the body.  Whatever the body
    does, leaving the scope runs [close]: the reader is not open afterwards,
    a value of the body is the value of the statement, and an exception of
    the body is raised again after the [close]. *)
Theorem C8_scoped_use {A : Type} (self : ZipFileStream.t) (w : World)
    (body : ZipFileStream.t -> M (ZipFileStream.t * World) A)
    (r : ZipFileStream.t) (st1 st2 : ZipFileStream.t * World) (res : Res A) :
  ZipFileStream.__enter__ (self, w) = (Ok r, st1) ->
  body r st1 = (res, st2) ->
  r = fst st1
  /\ ZipFileStream._ensure_open (self, w) = (Ok tt, st1)
  /\ ZipFileStream._opened (fst st1) = true
  /\ (ZipFileStream._opened self = true -> st1 = (self, w))
  /\ exists st3,
       ZipFileStream.close st2 = (Ok tt, st3)
       /\ ZipFileStream._opened (fst st3) = false
       /\ with_stmt ZipFileStream.__enter__ ZipFileStream.__exit__ body
            (self, w)
          = (match res with
             | Ok v => Ok (Some v)
             | Raise e => Raise e
             end, st3).
Proof.
  intros Henter Hbody.
  assert (Hopen : ZipFileStream._ensure_open (self, w) = (Ok tt, st1)
                  /\ r = fst st1).
  { revert Henter. unfold ZipFileStream.__enter__. run.
    destruct (ZipFileStream._ensure_open (self, w)) as [[[]|e] [s1 w1]];
      [|discriminate].
    now intros [= <- <-]. }
  destruct Hopen as [Hopen Hr].
  split; [exact Hr|]. split; [exact Hopen|].
  split; [exact (ensure_open_ok self w tt st1 Hopen)|].
  split.
  { intros Ho. rewrite (ensure_open_opened self w Ho) in Hopen.
    now injection Hopen. }
  destruct (close_total st2) as (st3 & Hclose & Ho3 & _).
  exists st3. split; [exact Hclose|]. split; [exact Ho3|].
  unfold with_stmt, bind. rewrite Henter, Hbody.
  unfold ZipFileStream.__exit__. run. rewrite Hclose.
  destruct res; reflexivity.
Qed.

Lemma C8_scoped_use_witness :
  exists st3,
    with_stmt ZipFileStream.__enter__ ZipFileStream.__exit__ sample_body
      (ZipExtractedFile_open sample_zef, world0)
    = (Raise (RuntimeError "boom"), st3)
    /\ ZipFileStream._opened (fst st3) = false
    /\ log (snd st3)
       = (acquisitions 0 "folder/image.png"
            ++ [Release (Member 0); Release (Index 0); Release (Handle 0)])%list.
Proof.
  destruct (ZipFileStream.__enter__ (ZipExtractedFile_open sample_zef, world0))
    as [r st1] eqn:E1.
  vm_compute in E1. injection E1 as <- <-.
  destruct (sample_body
              (opened_on 0 [sample_png] sample_png
                 (ZipExtractedFile_open sample_zef))
              (opened_on 0 [sample_png] sample_png
                 (ZipExtractedFile_open sample_zef),
               {| next_id := 1; log := acquisitions 0 "folder/image.png" |}))
    as [res st2] eqn:E2.
  destruct (C8_scoped_use (ZipExtractedFile_open sample_zef) world0
              sample_body _ _ st2 res eq_refl E2)
    as (_ & _ & _ & _ & st3 & Hc & Ho & Hw).
  vm_compute in E2. injection E2 as <- <-.
  vm_compute in Hc. injection Hc as <-.
  exists
    (ZipFileStream.set_opened false
       (ZipFileStream.set_stream
          (Some {| zef_id := 0%nat; zef_data := zi_data sample_png;
                   zef_pos := 2%nat; zef_closed := true |})
          (opened_on 0 [sample_png] sample_png
             (ZipExtractedFile_open sample_zef))),
     {| next_id := 1;
        log := acquisitions 0 "folder/image.png" ++
               [Release (Member 0); Release (Index 0); Release (Handle 0)] |}).
  split; [exact Hw|]. split; reflexivity.
Defined.

(** ** The download view *)

(** Reading a whole member through a reader that is not open yet. *)
Lemma read_all_unopened (zef : ZipExtractedFile.t) (fl : list ZipInfo)
    (info : ZipInfo) (w : World) :
  ObjectVersion.storage (PreviewFile.file (ZipExtractedFile.zip_fileobj zef))
    = Stored (Central fl) ->
  name_to_info fl !! ZipExtractedFile.zip_path zef = Some info ->
  zi_open_error info = None ->
  exists st,
    ZipFileStream.read (-1) (ZipExtractedFile_open zef, w)
    = (Ok (zi_data info), st).
Proof.
  intros Hst Hlk Herr.
  unfold ZipFileStream.read. run.
  rewrite (ensure_open_unopened (ZipExtractedFile_open zef) w fl info
             eq_refl Hst Hlk Herr).
  unfold ZipFileStream.on_stream, ZipExtFile_ops.read,
    ZipExtFile_ops.guard_open, ZipExtFile_ops.advance,
    ZipExtFile_ops.remaining.
  run. cbn. eexists. reflexivity.
Qed.

(** Header values without newlines. *)
Lemma has_newline_app (a b : string) :
  has_newline (a ++ b) = has_newline a || has_newline b.
Proof.
  induction a as [|c a IH]; [reflexivity|].
  rewrite str_app_cons. simpl. rewrite IH. now rewrite !orb_assoc.
Qed.

Lemma string_of_uint_no_newline (d : Decimal.uint) :
  has_newline (NilEmpty.string_of_uint d) = false.
Proof. induction d; simpl; auto. Qed.

(** [str(n)] is a sign and digits. *)
Lemma str_int_no_newline (n : Z) : has_newline (Py.str_int n) = false.
Proof.
  unfold Py.str_int, NilZero.string_of_int, NilZero.string_of_uint.
  destruct (Z.to_int n) as [d|d]; destruct d; simpl;
    auto using string_of_uint_no_newline.
Qed.

Lemma content_disposition_newline (name : string) :
  has_newline (content_disposition name) = has_newline name.
Proof.
  unfold content_disposition. rewrite !has_newline_app.
  cbn. now rewrite orb_false_r.
Qed.

(** What [Response(...)] does with the headers of the download view. *)
Lemma download_response (body : Body) (mimetype name : string) (n : Z) :
  Response_new body mimetype
    [("Content-Disposition", content_disposition name);
     ("Content-Length", Py.str_int n)]
  = if has_newline name || has_newline mimetype
    then Raise (ValueError "Header values must not contain newline characters.")
    else Ok (Response body mimetype
               (<["Content-Disposition" := content_disposition name]>
                  (<["Content-Length" := Py.str_int n]> ∅))).
Proof.
  unfold Response_new. cbn [existsb snd].
  rewrite content_disposition_newline, str_int_no_newline.
  rewrite !orb_false_r. reflexivity.
Qed.

Section DownloadView.

Variable record_file_factory :
  PID -> RecordT -> option string -> option ObjectVersion.t.
Variable guess_type : string -> option string * option string.

(** The view on a member that the index has: everything up to the
    construction of the response succeeds. *)
Lemma download_member (request : Request) (pid : PID) (record : RecordT)
    (kwargs : gmap string string) (fileobj : ObjectVersion.t) (w : World)
    (zp : string) (fl : list ZipInfo) (info : ZipInfo) :
  record_file_factory pid record (view_args request !! "filename")
    = Some fileobj ->
  args request !! "zip_path" = Some zp ->
  zp <> "" ->
  ends_with_ci (Py.basename (ObjectVersion.key fileobj)) ".zip" ->
  ObjectVersion.storage fileobj = Stored (Central fl) ->
  name_to_info fl !! zp = Some info ->
  exists zef w',
    file_download_ui record_file_factory guess_type request pid record kwargs w
    = (Response_new (StreamBody (ZipExtractedFile_open zef))
         (download_mimetype guess_type (Py.basename zp))
         [("Content-Disposition", content_disposition (Py.basename zp));
          ("Content-Length", Py.str_int (file_size info))], w')
    /\ ZipExtractedFile.zip_path zef = zp
    /\ ZipExtractedFile.zip_fileobj zef
       = PreviewFile.__init__ pid record fileobj.
Proof.
  intros Hf Hz Hne Hci Hst Hlk.
  assert (Ht : Py.truthy zp = true) by (destruct zp; [congruence | reflexivity]).
  apply endswith_lower_ci in Hci.
  unfold file_download_ui. rewrite Hf, Hz. cbn [Py.truthy_opt]. rewrite Ht.
  unfold create_preview_file. rewrite Ht.
  unfold PreviewFile.filename. cbn [PreviewFile.__init__ PreviewFile.file].
  rewrite Hci. cbn [negb]. run.
  rewrite (load_found pid record (PreviewFile.__init__ pid record fileobj)
             zp fl info w Hst Hlk).
  cbn [vf_open vf_size vf_filename]. run.
  rewrite size_of_info.
  eexists _, _. split; [reflexivity|]. split; reflexivity.
Qed.

End DownloadView.

(** C9. Take a download request whose [zip_path] names a member of the
    stored archive.  Whenever the view returns a response, and it does so
    exactly when neither the member's base name nor the inferred content
    type holds a newline (which [Response(...)] refuses), the body is an
    unopened [ZipFileStream] on that member (reading it yields the member's
    bytes), the content type is what [guess_type] infers from the member's
    base name, or [application/octet-stream] when it infers nothing, and the
    headers are [Content-Disposition: inline; filename="<base name>"] and
    [Content-Length: <file_size of the member>].  Without a [zip_path] the
    request goes to the plain download of the storage layer. *)
Theorem C9_download
    (record_file_factory :
       PID -> RecordT -> option string -> option ObjectVersion.t)
    (guess_type : string -> option string * option string)
    (request : Request) (pid : PID) (record : RecordT)
    (kwargs : gmap string string) (fileobj : ObjectVersion.t) (w : World) :
  record_file_factory pid record (view_args request !! "filename")
    = Some fileobj ->
  let run := file_download_ui record_file_factory guess_type request pid
               record kwargs w in
  (forall zp fl info,
     args request !! "zip_path" = Some zp ->
     zp <> "" ->
     ends_with_ci (Py.basename (ObjectVersion.key fileobj)) ".zip" ->
     ObjectVersion.storage fileobj = Stored (Central fl) ->
     name_to_info fl !! zp = Some info ->
     let mimetype := match fst (guess_type (Py.basename zp)) with
                     | Some m => m
                     | None => "application/octet-stream"
                     end in
     ((exists r, fst run = Ok r)
      <-> has_newline (Py.basename zp) = false
          /\ has_newline mimetype = false)
     /\ forall r,
          fst run = Ok r ->
          exists zef headers,
            r = Response (StreamBody (ZipExtractedFile_open zef))
                  mimetype headers
            /\ ZipExtractedFile.zip_path zef = zp
            /\ ZipExtractedFile.zip_fileobj zef
               = PreviewFile.__init__ pid record fileobj
            /\ (zi_open_error info = None ->
                exists st,
                  ZipFileStream.read (-1) (ZipExtractedFile_open zef, snd run)
                  = (Ok (zi_data info), st))
            /\ headers !! "Content-Disposition"
               = Some ("inline; filename=" ++ Py.dquote ++ Py.basename zp
                         ++ Py.dquote)
            /\ headers !! "Content-Length"
               = Some (Py.str_int (file_size info)))
  /\
  (args request !! "zip_path" = None ->
     run = (Ok (original_download pid record kwargs), w)).
Proof.
  intros Hf run. subst run. split.
  - intros zp fl info Hz Hne Hci Hst Hlk mimetype.
    destruct (download_member record_file_factory guess_type request pid
                record kwargs fileobj w zp fl info Hf Hz Hne Hci Hst Hlk)
      as (zef & w' & Hrun & Hzp & Hbase).
    rewrite Hrun, download_response. cbn [fst snd].
    fold mimetype. change (download_mimetype guess_type (Py.basename zp))
      with mimetype.
    destruct (has_newline (Py.basename zp)) eqn:Hn1;
      [|destruct (has_newline mimetype) eqn:Hn2]; cbn [orb].
    + split; [split; [intros [r [=]] | intros [[=] _]] | intros r [=]].
    + split; [split; [intros [r [=]] | intros [_ [=]]] | intros r [=]].
    + split; [split; [auto | eauto]|].
      intros r [= <-]. eexists zef, _. split; [reflexivity|].
      split; [exact Hzp|]. split; [exact Hbase|].
      split.
      { intros Herr. apply (read_all_unopened zef fl info w').
        - now rewrite Hbase.
        - now rewrite Hzp.
        - exact Herr. }
      split.
      * apply lookup_insert_eq.
      * rewrite lookup_insert_ne by discriminate. apply lookup_insert_eq.
  - intros Hz. unfold file_download_ui. now rewrite Hf, Hz.
Qed.

Lemma C9_download_witness :
  exists zef headers,
    fst (file_download_ui sample_factory sample_guess_type sample_request
           sample_pid "rec" ∅ world0)
    = Ok (Response (StreamBody (ZipExtractedFile_open zef))
            "image/png" headers)
    /\ headers !! "Content-Disposition"
       = Some ("inline; filename=" ++ Py.dquote ++ "image.png" ++ Py.dquote)
    /\ headers !! "Content-Length" = Some "1234".
Proof.
  destruct (C9_download sample_factory sample_guess_type sample_request
              sample_pid "rec" ∅ sample_archive world0 eq_refl) as [H _].
  destruct (H "folder/image.png" [sample_png] sample_png eq_refl
              ltac:(discriminate)
              (proj1 (endswith_lower_ci "Archive.ZIP" ".zip") eq_refl)
              eq_refl eq_refl) as [[_ Hok] Hprops].
  destruct (Hok (conj eq_refl eq_refl)) as [r Hr].
  destruct (Hprops r Hr) as (zef & headers & -> & _ & _ & _ & Hd & Hl).
  exists zef, headers. split; [exact Hr|]. split; [exact Hd | exact Hl].
Defined.

(** * Further properties of the code *)

(** ** Paths *)

Lemma rfind_from_last (c : ascii) (s : string) (i acc : Z) :
  Py.rfind_from c s i acc =
    match last_index c s with
    | Some k => i + Z.of_nat k
    | None => acc
    end.
Proof.
  revert i acc. induction s as [|d r IH]; intros i acc; simpl.
  - reflexivity.
  - rewrite IH. destruct (last_index c r) as [k|].
    + lia.
    + destruct (Ascii.eqb d c); [lia | reflexivity].
Qed.

Lemma rfind_last (c : ascii) (s : string) :
  Py.rfind c s =
    match last_index c s with
    | Some k => Z.of_nat k
    | None => -1
    end.
Proof. unfold Py.rfind. rewrite rfind_from_last. now destruct (last_index c s). Qed.

Lemma last_index_None (c : ascii) (s : string) :
  last_index c s = None <-> occurs c s = false.
Proof.
  induction s as [|d r IH]; simpl; [tauto|].
  destruct (last_index c r) as [k|].
  - split; [discriminate|]. intros H. apply orb_false_iff in H as [_ H].
    apply IH in H. discriminate.
  - destruct (Ascii.eqb d c); simpl; [split; discriminate|].
    split; intros _; [now apply IH | reflexivity].
Qed.

(** The string splits around the last occurrence. *)
Lemma last_index_Some (c : ascii) (s : string) (k : nat) :
  last_index c s = Some k ->
  exists pre rest,
    s = pre ++ String c rest /\ String.length pre = k
    /\ occurs c rest = false.
Proof.
  revert k. induction s as [|d r IH]; intros k; simpl; [discriminate|].
  destruct (last_index c r) as [j|] eqn:E.
  - intros [= <-]. destruct (IH j eq_refl) as (pre & rest & -> & Hl & Ho).
    exists (String d pre), rest. rewrite str_app_cons. simpl. auto.
  - destruct (Ascii.eqb d c) eqn:Ec; [|discriminate].
    intros [= <-]. apply Ascii.eqb_eq in Ec as ->.
    exists "", r. repeat split. now apply last_index_None.
Qed.

Lemma drop_app (pre s : string) : Py.drop (String.length pre) (pre ++ s) = s.
Proof. induction pre as [|c pre IH]; [now destruct s | exact IH]. Qed.

Lemma take_app (pre s : string) : PyPath.take (String.length pre) (pre ++ s) = pre.
Proof.
  induction pre as [|c pre IH]; [now destruct s|].
  rewrite str_app_cons. simpl. now rewrite IH.
Qed.

Lemma take_drop (n : nat) (s : string) : PyPath.take n s ++ Py.drop n s = s.
Proof.
  revert s. induction n as [|n IH]; intros s; [reflexivity|].
  destruct s as [|c r]; [reflexivity|].
  simpl. rewrite str_app_cons. now rewrite IH.
Qed.

Lemma str_app_assoc (a b c : string) : (a ++ b) ++ c = a ++ (b ++ c).
Proof.
  induction a as [|x a IH]; [reflexivity|].
  rewrite !str_app_cons. now rewrite IH.
Qed.

Lemma last_index_app (c : ascii) (pre s : string) :
  last_index c (pre ++ s) =
    match last_index c s with
    | Some k => Some (String.length pre + k)%nat
    | None => last_index c pre
    end.
Proof.
  induction pre as [|d pre IH].
  - change ("" ++ s) with s. now destruct (last_index c s).
  - rewrite str_app_cons. simpl. rewrite IH.
    destruct (last_index c s); [reflexivity|].
    now destruct (last_index c pre).
Qed.

(** [basename] is what follows the last slash, or everything. *)
Lemma basename_cases (p : string) :
  (occurs "/" p = false /\ Py.basename p = p /\ last_index "/" p = None)
  \/ exists pre,
       p = pre ++ String "/" (Py.basename p)
       /\ occurs "/" (Py.basename p) = false
       /\ last_index "/" p = Some (String.length pre).
Proof.
  unfold Py.basename. rewrite rfind_last.
  destruct (last_index "/" p) as [k|] eqn:E.
  - right. destruct (last_index_Some _ _ _ E) as (pre & rest & -> & <- & Ho).
    exists pre.
    replace (Z.to_nat (Z.of_nat (String.length pre) + 1))
      with (String.length (pre ++ "/")).
    2:{ rewrite app_length_str. simpl. lia. }
    replace (pre ++ String "/" rest) with ((pre ++ "/") ++ rest)
      by (now rewrite str_app_assoc).
    rewrite drop_app. rewrite str_app_assoc. auto.
  - left. split; [now apply last_index_None | auto].
Qed.

Lemma last_index_lt (c : ascii) (s : string) (k : nat) :
  last_index c s = Some k -> (k < String.length s)%nat.
Proof.
  intros H. destruct (last_index_Some _ _ _ H) as (pre & rest & -> & <- & _).
  rewrite app_length_str. simpl. lia.
Qed.

Lemma get_app (d s : string) (i : nat) :
  String.get (String.length d + i) (d ++ s) = String.get i s.
Proof. induction d as [|c d IH]; [reflexivity | exact IH]. Qed.

Lemma skip_leading_dots_app (d s : string) (i n : nat) :
  PyPath.skip_leading_dots (d ++ s) (String.length d + i) n
  = PyPath.skip_leading_dots s i n.
Proof.
  revert i. induction n as [|n IH]; intros i; simpl; [reflexivity|].
  unfold PyPath.not_dot_at. rewrite get_app.
  rewrite <- (IH (S i)). now rewrite Nat.add_succ_r.
Qed.

Lemma drop_app_add (d s : string) (k : nat) :
  Py.drop (String.length d + k) (d ++ s) = Py.drop k s.
Proof. induction d as [|c d IH]; [reflexivity | exact IH]. Qed.

(** [splitext] on a name without a slash. *)
Lemma splitext_component (b : string) :
  occurs "/" b = false ->
  snd (PyPath.splitext b) =
    match last_index "." b with
    | Some k => if PyPath.skip_leading_dots b 0 k then Py.drop k b else ""
    | None => ""
    end.
Proof.
  intros Hb. apply last_index_None in Hb.
  unfold PyPath.splitext. rewrite !rfind_last, Hb.
  destruct (last_index "." b) as [k|]; [|reflexivity].
  replace (-1 <? Z.of_nat k) with true by (symmetry; apply Z.ltb_lt; lia).
  replace (Z.to_nat (-1 + 1)) with 0%nat by lia.
  replace (Z.to_nat (Z.of_nat k - (-1 + 1))) with k by lia.
  rewrite Nat2Z.id.
  now destruct (PyPath.skip_leading_dots b 0 k).
Qed.

(** The extension of a path is the extension of its last component. *)
Lemma splitext_basename (p : string) :
  snd (PyPath.splitext p) = snd (PyPath.splitext (Py.basename p)).
Proof.
  destruct (basename_cases p) as [(_ & -> & _)|(pre & Hp & Hb & Hs)];
    [reflexivity|].
  rewrite (splitext_component _ Hb).
  set (b := Py.basename p) in *. clearbody b. subst p.
  unfold PyPath.splitext. rewrite !rfind_last, Hs.
  replace (pre ++ String "/" b) with ((pre ++ "/") ++ b)
    by (now rewrite str_app_assoc).
  rewrite last_index_app.
  assert (Hlen : String.length (pre ++ "/") = S (String.length pre))
    by (rewrite app_length_str; simpl; lia).
  destruct (last_index "." b) as [k|].
  - rewrite Hlen.
    replace (Z.of_nat (String.length pre) <? Z.of_nat (S (String.length pre) + k))
      with true by (symmetry; apply Z.ltb_lt; lia).
    replace (Z.to_nat (Z.of_nat (String.length pre) + 1))
      with (String.length (pre ++ "/") + 0)%nat by lia.
    replace (Z.to_nat (Z.of_nat (S (String.length pre) + k)
                       - (Z.of_nat (String.length pre) + 1))) with k by lia.
    rewrite skip_leading_dots_app.
    destruct (PyPath.skip_leading_dots b 0 k); [|reflexivity].
    rewrite Nat2Z.id, <- Hlen. cbn [snd]. apply drop_app_add.
  - rewrite last_index_app. cbn [last_index]. cbn.
    destruct (last_index "." pre) as [j|] eqn:Ej.
    + apply last_index_lt in Ej.
      replace (Z.of_nat (String.length pre) <? Z.of_nat j)
        with false by (symmetry; apply Z.ltb_ge; lia).
      reflexivity.
    + replace (Z.of_nat (String.length pre) <? -1)
        with false by (symmetry; apply Z.ltb_ge; lia).
      reflexivity.
Qed.

Lemma occurs_app (c : ascii) (a b : string) :
  occurs c (a ++ b) = occurs c a || occurs c b.
Proof.
  induction a as [|d a IH]; [reflexivity|].
  rewrite str_app_cons. simpl. now rewrite IH, orb_assoc.
Qed.

Lemma str_app_nil_r (s : string) : s ++ "" = s.
Proof.
  induction s as [|c s IH]; [reflexivity|].
  rewrite str_app_cons. now rewrite IH.
Qed.

(** [splitext] cuts the path in two. *)
Lemma splitext_join (p : string) :
  fst (PyPath.splitext p) ++ snd (PyPath.splitext p) = p.
Proof.
  unfold PyPath.splitext.
  destruct (_ <? _); [|apply str_app_nil_r].
  destruct (PyPath.skip_leading_dots _ _ _); cbn [fst snd];
    [apply take_drop | apply str_app_nil_r].
Qed.

(** The extension is empty, or a dot followed by characters that are
    neither dots nor slashes. *)
Lemma splitext_shape (p : string) :
  snd (PyPath.splitext p) = ""
  \/ exists r, snd (PyPath.splitext p) = String "." r
               /\ occurs "." r = false /\ occurs "/" r = false.
Proof.
  rewrite splitext_basename.
  assert (Hb : occurs "/" (Py.basename p) = false).
  { destruct (basename_cases p) as [(H & -> & _)|(pre & _ & H & _)]; exact H. }
  rewrite (splitext_component _ Hb).
  destruct (last_index "." (Py.basename p)) as [k|] eqn:E; [|now left].
  destruct (PyPath.skip_leading_dots _ _ _); [|now left].
  destruct (last_index_Some _ _ _ E) as (pre & rest & Heq & <- & Ho).
  right. exists rest. rewrite Heq.
  replace (String.length pre) with (String.length pre + 0)%nat by lia.
  rewrite drop_app_add. split; [reflexivity|]. split; [exact Ho|].
  rewrite Heq, occurs_app in Hb. apply orb_false_iff in Hb as [_ Hb].
  simpl in Hb. exact Hb.
Qed.

(** ** [has_extensions] *)

Lemma lower_char_idem (c : ascii) :
  Py.lower_char (Py.lower_char c) = Py.lower_char c.
Proof. destruct c as [[] [] [] [] [] [] [] []]; reflexivity. Qed.

Lemma lower_idem (s : string) : Py.lower (Py.lower s) = Py.lower s.
Proof.
  induction s as [|c s IH]; [reflexivity|].
  simpl. now rewrite lower_char_idem, IH.
Qed.

Lemma str_in_spec (s : string) (l : list string) :
  str_in s l = true <-> In s l.
Proof.
  unfold str_in. rewrite existsb_exists. split.
  - intros (x & Hx & He). apply String.eqb_eq in He. now subst.
  - intros H. exists s. split; [exact H | apply String.eqb_refl].
Qed.

Lemma lower_char_dot (d : ascii) :
  Ascii.eqb (Py.lower_char d) "." = Ascii.eqb d ".".
Proof. destruct d as [[] [] [] [] [] [] [] []]; reflexivity. Qed.

Lemma lower_char_slash (d : ascii) :
  Ascii.eqb (Py.lower_char d) "/" = Ascii.eqb d "/".
Proof. destruct d as [[] [] [] [] [] [] [] []]; reflexivity. Qed.

Lemma occurs_lower_dot (s : string) : occurs "." (Py.lower s) = occurs "." s.
Proof.
  induction s as [|d s IH]; [reflexivity|].
  simpl. now rewrite lower_char_dot, IH.
Qed.

Lemma occurs_lower_slash (s : string) : occurs "/" (Py.lower s) = occurs "/" s.
Proof.
  induction s as [|d s IH]; [reflexivity|].
  simpl. now rewrite lower_char_slash, IH.
Qed.

(** The lower-cased extension of any path is a candidate that can match. *)
Lemma can_match_ext (p : string) :
  can_match (Py.lower (snd (PyPath.splitext p))) = true.
Proof.
  unfold can_match. rewrite lower_idem, String.eqb_refl. cbn [andb].
  destruct (splitext_shape p) as [->|(r & -> & Hd & Hs)]; [reflexivity|].
  simpl. rewrite occurs_lower_dot, occurs_lower_slash, Hd, Hs. reflexivity.
Qed.

Lemma str_in_filter (s : string) (P : string -> bool) (l : list string) :
  P s = true -> str_in s (List.filter P l) = str_in s l.
Proof.
  intros HP. unfold str_in. induction l as [|e l IH]; [reflexivity|].
  simpl. destruct (P e) eqn:E.
  - simpl. now rewrite IH.
  - rewrite IH. destruct (String.eqb s e) eqn:Ee; [|reflexivity].
    apply String.eqb_eq in Ee. congruence.
Qed.

(** X1. [has_extensions] compares the candidates with the lower-cased
    extension of the name ([str.lower] on the characters of the model, the
    code points below 256), so a candidate written with a capital letter, or
    with two dots (like [.tar.gz]), or without its dot, or with a slash,
    never matches: dropping such candidates changes no answer, for either
    class of file. *)
Theorem has_extensions_only_matchable (f : VirtualFile) (exts : list string) :
  vf_has_extensions f exts = vf_has_extensions f (List.filter can_match exts).
Proof.
  destruct f as [p|z]; cbn [vf_has_extensions];
    unfold PreviewFile_has_extensions, ZipExtractedFile_has_extensions;
    symmetry; apply str_in_filter, can_match_ext.
Qed.

(** X2. A member of an archive and a directly stored file with the same base
    name have the same extensions: [ZipExtractedFile.has_extensions] works on
    the whole member path, [PreviewFile.has_extensions] on the base name of
    the key, and the directories of the member path make no difference. *)
Theorem has_extensions_member_like_direct (p : PreviewFile.t)
    (z : ZipExtractedFile.t) (exts : list string) :
  PreviewFile.filename p = ZipExtractedFile.filename z ->
  PreviewFile_has_extensions p exts = ZipExtractedFile_has_extensions z exts.
Proof.
  intros H. unfold PreviewFile_has_extensions, ZipExtractedFile_has_extensions.
  rewrite H. unfold ZipExtractedFile.filename.
  now rewrite <- splitext_basename.
Qed.

Lemma has_extensions_member_like_direct_witness :
  PreviewFile_has_extensions sample_direct [".png"; ".jpg"]
  = ZipExtractedFile_has_extensions sample_zef [".png"; ".jpg"].
Proof.
  apply (has_extensions_member_like_direct sample_direct sample_zef).
  reflexivity.
Defined.

(** X3. The name shown for a file is the last component of its path: it
    contains no slash, and the key (for a stored file) or the member path
    (for a member) is that name, or a directory, a slash and that name. *)
Theorem filename_is_last_component (f : VirtualFile) :
  let path := match f with
              | Direct p => ObjectVersion.key (PreviewFile.file p)
              | Extracted z => ZipExtractedFile.zip_path z
              end in
  occurs "/" (vf_filename f) = false
  /\ (path = vf_filename f
      \/ exists dir, path = dir ++ String "/" (vf_filename f)).
Proof.
  destruct f as [p|z]; cbn [vf_filename];
    unfold PreviewFile.filename, ZipExtractedFile.filename;
    match goal with
    | |- context [Py.basename ?s] =>
        destruct (basename_cases s) as [(H & -> & _)|(pre & Hp & H & _)]
    end;
    (split; [exact H|]); [now left | right; eauto | now left | right; eauto].
Qed.

(** A file that [has_extensions(".zip")] accepts has a name that passes the
    gate of the factory. *)
Lemma zip_extension_ends_with (name : string) :
  Py.lower (snd (PyPath.splitext name)) = ".zip" ->
  ends_with_ci name ".zip".
Proof.
  intros H. exists (fst (PyPath.splitext name)), (snd (PyPath.splitext name)).
  split; [symmetry; apply splitext_join | exact H].
Qed.

(** ** What the factory raises and what it does to the storage *)

(** Every way [ZipExtractedFile.__init__] can end. *)
Lemma init_outcome (pid : PID) (record : RecordT) (base : PreviewFile.t)
    (zp : string) (w : World) :
  exists r w' evs,
    ZipExtractedFile.__init__ pid record base zp w = (r, w')
    /\ log w' = (log w ++ evs)%list
    /\ probe_events (next_id w) zp evs
    /\ match r with
       | Ok f =>
           ZipExtractedFile.zip_path f = zp
           /\ ZipExtractedFile.zip_fileobj f = base
           /\ ZipExtractedFile.file f = PreviewFile.file base
           /\ ZipExtractedFile.pid f = pid
           /\ exists n, ZipExtractedFile.size f = Ok n
       | Raise e =>
           e = FileNotFoundError ("File '" ++ zp ++ "' not found in ZIP archive")
           \/ is_Exception e = false
       end.
Proof.
  destruct (ObjectVersion.storage (PreviewFile.file base))
    as [e0|[e0|fl]] eqn:Hst.
  - unfold ZipExtractedFile.__init__, ZipExtractedFile._load_file_info,
      PreviewFile.open, storage_open.
    run. cbn. rewrite Hst. cbn.
    destruct e0; cbn; eexists _, _, [];
      (split; [reflexivity|]); rewrite app_nil_r;
      (split; [reflexivity|]); (split; [now left|]);
      try (now left); try (now right);
      (repeat (split; [reflexivity|])); eexists;
      unfold ZipExtractedFile.size; cbn; reflexivity.
  - unfold ZipExtractedFile.__init__, ZipExtractedFile._load_file_info,
      PreviewFile.open, storage_open, ZipFile_new, FileHandle_close.
    run. cbn. rewrite Hst. cbn.
    destruct e0; cbn; rewrite <- ?app_assoc;
      eexists _, _, [Acquire (Handle (next_id w)); Release (Handle (next_id w))];
      (split; [reflexivity|]);
      (split; [reflexivity|]); (split; [right; now left|]);
      try (now left); try (now right);
      (repeat (split; [reflexivity|])); eexists;
      unfold ZipExtractedFile.size; cbn; reflexivity.
  - destruct (name_to_info fl !! zp) as [info|] eqn:Hlk.
    + rewrite (load_found pid record base zp fl info w Hst Hlk).
      eexists _, _, _. split; [reflexivity|]. cbn [log].
      split; [reflexivity|]. split; [right; now right|].
      repeat (split; [reflexivity|]).
      eexists. apply size_of_info.
    + rewrite (load_missing pid record base zp fl w Hst Hlk).
      eexists _, _, _. split; [reflexivity|]. cbn [log].
      split; [reflexivity|]. split; [right; now right|]. now left.
Qed.

(** Every way [create_preview_file] can end. *)
Lemma create_outcome (pid : PID) (record : RecordT)
    (fileobj : ObjectVersion.t) (zip_path : option string) (w : World) :
  exists r w' evs,
    create_preview_file pid record fileobj zip_path w = (r, w')
    /\ log w' = (log w ++ evs)%list
    /\ probe_events (next_id w) (default "" zip_path) evs
    /\ match r with
       | Ok (Direct p) =>
           Py.truthy_opt zip_path = false
           /\ p = PreviewFile.__init__ pid record fileobj /\ w' = w
       | Ok (Extracted f) =>
           Py.truthy_opt zip_path = true
           /\ zip_path = Some (ZipExtractedFile.zip_path f)
           /\ ZipExtractedFile.file f = fileobj
           /\ ZipExtractedFile.pid f = pid
           /\ exists n, ZipExtractedFile.size f = Ok n
       | Raise e =>
           Py.truthy_opt zip_path = true
           /\ ((e = ValueError "Container file must be a ZIP archive"
                /\ w' = w)
               \/ (exists zp, zip_path = Some zp
                     /\ e = FileNotFoundError
                              ("File '" ++ zp ++ "' not found in ZIP archive"))
               \/ is_Exception e = false)
       end.
Proof.
  unfold create_preview_file.
  destruct zip_path as [zp|]; cbn [Py.truthy_opt default].
  2:{ eexists _, _, []. split; [reflexivity|]. rewrite app_nil_r.
      split; [reflexivity|]. split; [now left|]. now repeat split. }
  destruct (Py.truthy zp) eqn:Ht.
  2:{ eexists _, _, []. split; [reflexivity|]. rewrite app_nil_r.
      split; [reflexivity|]. split; [now left|]. now repeat split. }
  destruct (negb _).
  { eexists _, _, []. split; [reflexivity|]. rewrite app_nil_r.
    split; [reflexivity|]. split; [now left|].
    split; [reflexivity|]. left. now split. }
  destruct (init_outcome pid record (PreviewFile.__init__ pid record fileobj)
              zp w) as (r & w' & evs & Hrun & Hlog & Hev & Hr).
  run. rewrite Hrun. destruct r as [f|e].
  - destruct Hr as (Hzp & _ & Hfile & Hpid & Hsize).
    eexists _, _, evs. split; [reflexivity|]. split; [exact Hlog|].
    split; [exact Hev|]. split; [reflexivity|].
    rewrite Hzp. repeat split; auto.
  - eexists _, _, evs. split; [reflexivity|]. split; [exact Hlog|].
    split; [exact Hev|]. split; [reflexivity|].
    destruct Hr as [->|Hr]; [right; left; eauto | now right; right].
Qed.

(** X4. Whatever the stored object is (missing, unreadable, not an archive,
    an archive with or without the member), building a [ZipExtractedFile]
    probes the container at most once and leaves nothing open: the handle and
    the index are closed again, in reverse order, also when the constructor
    raises, and no member stream is opened. *)
Theorem construction_probes_once (pid : PID) (record : RecordT)
    (base : PreviewFile.t) (zp : string) (w : World) :
  exists evs,
    log (snd (ZipExtractedFile.__init__ pid record base zp w))
    = (log w ++ evs)%list
    /\ probe_events (next_id w) zp evs.
Proof.
  destruct (init_outcome pid record base zp w)
    as (r & w' & evs & Hrun & Hlog & Hev & _).
  exists evs. rewrite Hrun. auto.
Qed.

(** X5. The factory raises nothing but the [ValueError] of the gate (with the
    storage untouched), the [FileNotFoundError] of a member that is missing,
    and exceptions that are not [Exception]s (which pass through from the
    storage layer): every [Exception] met while probing the container is
    turned into [FileNotFoundError] or swallowed. *)
Theorem create_preview_file_raises (pid : PID) (record : RecordT)
    (fileobj : ObjectVersion.t) (zip_path : option string) (w w' : World)
    (e : exn) :
  create_preview_file pid record fileobj zip_path w = (Raise e, w') ->
  (e = ValueError "Container file must be a ZIP archive" /\ w' = w)
  \/ (exists zp, zip_path = Some zp
        /\ e = FileNotFoundError
                 ("File '" ++ zp ++ "' not found in ZIP archive"))
  \/ is_Exception e = false.
Proof.
  intros H.
  destruct (create_outcome pid record fileobj zip_path w)
    as (r & w1 & evs & Hrun & _ & _ & Hr).
  rewrite H in Hrun. injection Hrun as <- <-. tauto.
Qed.

Lemma create_preview_file_raises_witness :
  (FileNotFoundError "File 'folder/missing.png' not found in ZIP archive"
   = ValueError "Container file must be a ZIP archive"
   /\ snd (create_preview_file sample_pid "rec" sample_archive
             (Some "folder/missing.png") world0) = world0)
  \/ (exists zp, Some "folder/missing.png" = Some zp
        /\ FileNotFoundError
             "File 'folder/missing.png' not found in ZIP archive"
           = FileNotFoundError
               ("File '" ++ zp ++ "' not found in ZIP archive"))
  \/ is_Exception
       (FileNotFoundError
          "File 'folder/missing.png' not found in ZIP archive") = false.
Proof.
  apply (create_preview_file_raises sample_pid "rec" sample_archive
           (Some "folder/missing.png") world0).
  reflexivity.
Defined.

(** X6. The two tests for "is a ZIP" agree in one direction: when
    [has_extensions(".zip")] holds of the stored file, the factory never
    raises the [ValueError] of its gate, whatever member path it is given. *)
Theorem zip_extension_passes_gate (pid : PID) (record : RecordT)
    (fileobj : ObjectVersion.t) (zip_path : option string) (w w' : World)
    (e : exn) :
  PreviewFile_has_extensions (PreviewFile.__init__ pid record fileobj) [".zip"]
    = true ->
  create_preview_file pid record fileobj zip_path w = (Raise e, w') ->
  is_ValueError e = false.
Proof.
  intros Hext Hrun.
  unfold PreviewFile_has_extensions in Hext. apply str_in_spec in Hext.
  destruct Hext as [Hext|[]]. symmetry in Hext.
  apply zip_extension_ends_with, endswith_lower_ci in Hext.
  revert Hrun. unfold create_preview_file.
  destruct zip_path as [zp|]; [|discriminate].
  destruct (Py.truthy zp); [|discriminate].
  rewrite Hext. cbn [negb].
  destruct (init_outcome pid record (PreviewFile.__init__ pid record fileobj)
              zp w) as (r & w1 & evs & Hinit & _ & _ & Hr).
  run. rewrite Hinit. destruct r as [f|e1]; [discriminate|].
  intros [= <- <-]. destruct Hr as [->|Hr]; [reflexivity|].
  now destruct e1.
Qed.

Lemma zip_extension_passes_gate_witness :
  is_ValueError
    (FileNotFoundError "File 'folder/missing.png' not found in ZIP archive")
  = false.
Proof.
  apply (zip_extension_passes_gate sample_pid "rec" sample_archive
           (Some "folder/missing.png") world0
           (snd (create_preview_file sample_pid "rec" sample_archive
                   (Some "folder/missing.png") world0))).
  - reflexivity.
  - reflexivity.
Defined.

(** ** The download view, on every request *)

Section DownloadOutcomes.

Variable record_file_factory :
  PID -> RecordT -> option string -> option ObjectVersion.t.
Variable guess_type : string -> option string * option string.


End DownloadOutcomes.


(** X8. A download with a member path on a stored file whose name does not
    end in [.zip] is refused with status 400 and the text
    [Container file must be a ZIP archive], before the storage is touched. *)
Theorem download_not_a_zip
    (record_file_factory :
       PID -> RecordT -> option string -> option ObjectVersion.t)
    (guess_type : string -> option string * option string)
    (request : Request) (pid : PID) (record : RecordT)
    (kwargs : gmap string string) (fileobj : ObjectVersion.t) (zp : string)
    (w : World) :
  record_file_factory pid record (view_args request !! "filename")
    = Some fileobj ->
  args request !! "zip_path" = Some zp ->
  zp <> "" ->
  ~ ends_with_ci (Py.basename (ObjectVersion.key fileobj)) ".zip" ->
  file_download_ui record_file_factory guess_type request pid record kwargs w
  = (Raise (HTTPException 400 "Container file must be a ZIP archive"), w).
Proof.
  intros Hf Hz Hne Hci.
  assert (Ht : Py.truthy zp = true) by (destruct zp; [congruence | reflexivity]).
  unfold file_download_ui. rewrite Hf, Hz. cbn [Py.truthy_opt]. rewrite Ht.
  unfold create_preview_file. rewrite Ht.
  unfold PreviewFile.filename. cbn [PreviewFile.__init__ PreviewFile.file].
  destruct (Py.endswith _ ".zip") eqn:E.
  - exfalso. apply Hci. now apply endswith_lower_ci.
  - reflexivity.
Qed.

Lemma download_not_a_zip_witness :
  file_download_ui (always sample_notes) sample_guess_type
    (request_for "notes.txt" "x") sample_pid "rec" ∅ world0
  = (Raise (HTTPException 400 "Container file must be a ZIP archive"), world0).
Proof.
  apply (download_not_a_zip (always sample_notes) sample_guess_type
           (request_for "notes.txt" "x") sample_pid "rec" ∅ sample_notes "x"
           world0).
  - reflexivity.
  - reflexivity.
  - discriminate.
  - intros H. apply endswith_lower_ci in H. vm_compute in H. discriminate.
Defined.



(** X10. A download from a container that can be opened but is not a ZIP
    archive, with a member path whose base name and inferred content type
    hold no newline, is not refused: the response is built with
    [Content-Length: 0] around a reader that is not open, and the exception of
    [zipfile] comes out of the first read of that body. *)
Theorem download_of_corrupt_container
    (record_file_factory :
       PID -> RecordT -> option string -> option ObjectVersion.t)
    (guess_type : string -> option string * option string)
    (request : Request) (pid : PID) (record : RecordT)
    (kwargs : gmap string string) (fileobj : ObjectVersion.t) (zp : string)
    (e : exn) (w : World) :
  record_file_factory pid record (view_args request !! "filename")
    = Some fileobj ->
  args request !! "zip_path" = Some zp ->
  zp <> "" ->
  ends_with_ci (Py.basename (ObjectVersion.key fileobj)) ".zip" ->
  ObjectVersion.storage fileobj = Stored (Corrupt e) ->
  is_Exception e = true ->
  is_KeyError e = false ->
  has_newline (Py.basename zp) = false ->
  has_newline (download_mimetype guess_type (Py.basename zp)) = false ->
  exists s headers w',
    file_download_ui record_file_factory guess_type request pid record kwargs w
    = (Ok (Response (StreamBody s)
             (download_mimetype guess_type (Py.basename zp)) headers), w')
    /\ headers !! "Content-Length" = Some "0"
    /\ ZipFileStream._opened s = false
    /\ forall size, exists st,
         ZipFileStream.read size (s, w') = (Raise e, st).
Proof.
  intros Hf Hz Hne Hci Hst He Hk Hn1 Hn2.
  assert (Ht : Py.truthy zp = true) by (destruct zp; [congruence | reflexivity]).
  apply endswith_lower_ci in Hci.
  unfold file_download_ui. rewrite Hf, Hz. cbn [Py.truthy_opt]. rewrite Ht.
  unfold create_preview_file. rewrite Ht.
  unfold PreviewFile.filename. cbn [PreviewFile.__init__ PreviewFile.file].
  rewrite Hci. cbn [negb]. run.
  destruct (load_corrupt pid record (PreviewFile.__init__ pid record fileobj)
              zp e w Hst He Hk) as (f & Hinit & Hinfo).
  destruct (init_outcome pid record (PreviewFile.__init__ pid record fileobj)
              zp w) as (r & w1 & evs & Hinit' & _ & _ & Hr).
  rewrite Hinit in Hinit'. injection Hinit' as <- <-.
  destruct Hr as (Hzp & Hbase & _).
  rewrite Hinit. cbn [vf_open vf_size vf_filename]. run.
  rewrite (size_degraded f Hinfo).
  unfold ZipExtractedFile.filename. rewrite Hzp.
  change (match fst (guess_type (Py.basename zp)) with
          | Some m => m
          | None => "application/octet-stream"
          end) with (download_mimetype guess_type (Py.basename zp)).
  pose proof (download_response (StreamBody (ZipExtractedFile_open f))
                (download_mimetype guess_type (Py.basename zp))
                (Py.basename zp) 0) as Hresp.
  unfold content_disposition in Hresp. rewrite Hresp, Hn1, Hn2. cbn [orb].
  eexists _, _, _. split; [reflexivity|].
  split; [rewrite lookup_insert_ne by discriminate; apply lookup_insert_eq|].
  split; [reflexivity|].
  intros size. unfold ZipFileStream.read. run.
  rewrite ensure_open_corrupt with (e := e);
    [eexists; reflexivity | reflexivity |].
  cbn. rewrite Hbase. exact Hst.
Qed.

Lemma download_of_corrupt_container_witness :
  exists s headers w',
    file_download_ui (always sample_corrupt) sample_guess_type request_broken
      sample_pid "rec" ∅ world0
    = (Ok (Response (StreamBody s) "application/octet-stream" headers), w')
    /\ headers !! "Content-Length" = Some "0"
    /\ ZipFileStream._opened s = false
    /\ forall size, exists st,
         ZipFileStream.read size (s, w')
         = (Raise (BadZipFile "File is not a zip file"), st).
Proof.
  apply (download_of_corrupt_container (always sample_corrupt)
           sample_guess_type request_broken sample_pid "rec" ∅ sample_corrupt
           "a.txt" (BadZipFile "File is not a zip file") world0).
  - reflexivity.
  - reflexivity.
  - discriminate.
  - apply endswith_lower_ci. reflexivity.
  - reflexivity.
  - reflexivity.
  - reflexivity.
  - reflexivity.
  - reflexivity.
Defined.

(** ** Archives with repeated names *)

Lemma name_to_info_last (fl later : list ZipInfo) (zi : ZipInfo) :
  (forall z, In z later -> zi_filename z <> zi_filename zi) ->
  name_to_info (fl ++ zi :: later) !! zi_filename zi = Some zi.
Proof.
  induction later as [|z later IH] using rev_ind; intros H.
  - rewrite name_to_info_snoc. apply lookup_insert_eq.
  - replace (fl ++ zi :: later ++ [z])%list
      with ((fl ++ zi :: later) ++ [z])%list
      by (now rewrite <- app_assoc).
    rewrite name_to_info_snoc, lookup_insert_ne.
    + apply IH. intros z' Hz'. apply H, in_or_app. now left.
    + apply H, in_or_app. right. now left.
Qed.

(** X11. When the central directory lists a name more than once, the member
    a [ZipExtractedFile] stands for is the last entry of that name: its
    [size] is that entry's [file_size], whatever the earlier entries say. *)
Theorem duplicate_names_last_wins (pid : PID) (record : RecordT)
    (base : PreviewFile.t) (fl later : list ZipInfo) (zi : ZipInfo)
    (w : World) :
  ObjectVersion.storage (PreviewFile.file base)
    = Stored (Central (fl ++ zi :: later)) ->
  (forall z, In z later -> zi_filename z <> zi_filename zi) ->
  exists f w',
    ZipExtractedFile.__init__ pid record base (zi_filename zi) w = (Ok f, w')
    /\ ZipExtractedFile.size f = Ok (file_size zi).
Proof.
  intros Hst Hlater.
  pose proof (name_to_info_last fl later zi Hlater) as Hlk.
  rewrite (load_found pid record base (zi_filename zi) _ zi w Hst Hlk).
  eexists _, _. split; [reflexivity | apply size_of_info].
Qed.

Lemma duplicate_names_last_wins_witness :
  exists f w',
    ZipExtractedFile.__init__ sample_pid "rec"
      (PreviewFile.__init__ sample_pid "rec"
         (stored "twice.zip" (Stored (Central [sample_png_old; sample_png]))))
      "folder/image.png" world0 = (Ok f, w')
    /\ ZipExtractedFile.size f = Ok 1234.
Proof.
  apply (duplicate_names_last_wins sample_pid "rec"
           (PreviewFile.__init__ sample_pid "rec"
              (stored "twice.zip"
                 (Stored (Central [sample_png_old; sample_png]))))
           [sample_png_old] [] sample_png world0).
  - reflexivity.
  - intros z [].
Defined.

(** ** Any sequence of calls on a reader *)

Lemma rounds_snoc (n k : nat) (path : string) :
  rounds n (S k) path
  = (rounds n k path ++ acquisitions (n + k) path
       ++ [Release (Member (n + k)); Release (Index (n + k));
           Release (Handle (n + k))])%list.
Proof.
  revert n. induction k as [|k IH]; intros n.
  - cbn [rounds]. rewrite Nat.add_0_r, app_nil_r. reflexivity.
  - change (rounds n (S (S k)) path)
      with (acquisitions n path
              ++ [Release (Member n); Release (Index n); Release (Handle n)]
              ++ rounds (S n) (S k) path)%list.
    rewrite IH. cbn [rounds].
    replace (S n + k)%nat with (n + S k)%nat by lia.
    rewrite <- !app_assoc. reflexivity.
Qed.

Lemma run_calls_snoc (cs : list reader_call) (c : reader_call) st :
  run_calls (cs ++ [c]) st = run_call c (run_calls cs st).
Proof. unfold run_calls. now rewrite fold_left_app. Qed.

Section ReaderRounds.

Variable zef : ZipExtractedFile.t.
Variable fl : list ZipInfo.
Variable info : ZipInfo.
Hypothesis Hstorage :
  ObjectVersion.storage (PreviewFile.file (ZipExtractedFile.zip_fileobj zef))
  = Stored (Central fl).
Hypothesis Hlookup :
  name_to_info fl !! ZipExtractedFile.zip_path zef = Some info.
Hypothesis Hopens : zi_open_error info = None.

Lemma reader_inv_step (n0 : nat) (log0 : list event) (k : nat)
    (st : ZipFileStream.t * World) (c : reader_call) :
  reader_inv zef fl n0 log0 k st ->
  exists k', reader_inv zef fl n0 log0 k' (run_call c st).
Proof.
  destruct st as [self w]. unfold reader_inv. cbn [fst snd].
  intros [Hz Hinv].
  destruct (ZipFileStream._opened self) eqn:Ho.
  - destruct Hinv as (Hlog & Hnext & Hfp & Hzf & s & Hs & Hid).
    destruct c as [op|]; cbn [run_call].
    + exists k. rewrite call_unfold, (ensure_open_opened self w Ho).
      destruct (ZipFileStream.on_stream (stream_op op) (self, w))
        as [r [self' w']] eqn:E.
      destruct (on_stream_frame op self w r self' w' E)
        as (-> & Ho' & Hfp' & Hzf' & Hz' & Hs').
      destruct (Hs' s Hs) as (s' & Hs1 & Hid' & _).
      cbn [fst snd]. rewrite Ho', Ho, Hfp', Hzf', Hz'.
      split; [exact Hz|]. repeat (split; [assumption|]).
      exists s'. split; [exact Hs1 | congruence].
    + exists (S k).
      destruct (close_opened self w s _ _ Ho Hs Hzf Hfp)
        as (self' & Hc & Ho' & Hz').
      rewrite Hc. cbn [fst snd]. rewrite Ho', Hz'.
      split; [exact Hz|]. cbn [log next_id]. split; [|lia].
      rewrite Hlog, rounds_snoc. unfold releases. cbn [zf_id fh_id].
      rewrite Hid, <- !app_assoc. reflexivity.
  - destruct Hinv as (Hlog & Hnext).
    destruct c as [op|]; cbn [run_call].
    + exists k. rewrite call_unfold.
      assert (Hst' : ObjectVersion.storage
                       (PreviewFile.file
                          (ZipExtractedFile.zip_fileobj
                             (ZipFileStream.zip_extracted_file self)))
                     = Stored (Central fl)) by now rewrite Hz.
      assert (Hlk' : name_to_info fl
                       !! ZipExtractedFile.zip_path
                            (ZipFileStream.zip_extracted_file self)
                     = Some info) by now rewrite Hz.
      rewrite (ensure_open_unopened self w fl info Ho Hst' Hlk' Hopens).
      destruct (ZipFileStream.on_stream (stream_op op) _)
        as [r [self' w']] eqn:E.
      destruct (on_stream_frame op _ _ r self' w' E)
        as (-> & Ho' & Hfp' & Hzf' & Hz' & Hs').
      destruct (Hs' _ eq_refl) as (s' & Hs1 & Hid' & _).
      cbn [fst snd]. rewrite Ho', Hfp', Hzf', Hz'.
      cbn [opened_on ZipFileStream._opened ZipFileStream._zip_fp
           ZipFileStream._zipfile ZipFileStream.zip_extracted_file
           log next_id].
      rewrite Hz, Hnext, Hlog. split; [reflexivity|].
      split; [now rewrite <- app_assoc|]. split; [reflexivity|].
      split; [reflexivity|]. split; [reflexivity|].
      exists s'. split; [exact Hs1|]. rewrite Hid'. cbn. exact Hnext.
    + exists k. rewrite (close_unopened self w Ho). cbn [fst snd].
      rewrite Ho. auto.
Qed.

Lemma reader_inv_calls (n0 : nat) (log0 : list event)
    (cs : list reader_call) (st : ZipFileStream.t * World) (k : nat) :
  reader_inv zef fl n0 log0 k st ->
  exists k', reader_inv zef fl n0 log0 k' (run_calls cs st).
Proof.
  induction cs as [|c cs IH] using rev_ind; intros Hinv.
  - exists k. exact Hinv.
  - destruct (IH Hinv) as (k1 & H1). rewrite run_calls_snoc.
    exact (reader_inv_step n0 log0 k1 _ c H1).
Qed.

End ReaderRounds.

Lemma acquired_acquisitions (r : resource) (n : nat) (path : string) :
  acquired r (acquisitions n path) = if Nat.eqb (res_id r) n then 1%nat else 0%nat.
Proof.
  unfold acquired, acquisitions.
  destruct r as [m|m|m]; cbn [res_id]; repeat count_step; cbn [count_occ];
    destruct (Nat.eqb_spec m n); congruence.
Qed.

Lemma released_acquisitions (r : resource) (n : nat) (path : string) :
  released r (acquisitions n path) = 0%nat.
Proof. unfold released, acquisitions. repeat count_step. reflexivity. Qed.

Lemma released_releases (r : resource) (n : nat) :
  released r [Release (Member n); Release (Index n); Release (Handle n)]
  = if Nat.eqb (res_id r) n then 1%nat else 0%nat.
Proof.
  unfold released.
  destruct r as [m|m|m]; cbn [res_id]; repeat count_step; cbn [count_occ];
    destruct (Nat.eqb_spec m n); congruence.
Qed.

Lemma acquired_releases (r : resource) (n : nat) :
  acquired r [Release (Member n); Release (Index n); Release (Handle n)]
  = 0%nat.
Proof. unfold acquired. repeat count_step. reflexivity. Qed.

Lemma acquired_app (r : resource) (a b : list event) :
  acquired r (a ++ b) = (acquired r a + acquired r b)%nat.
Proof. apply count_occ_app. Qed.

Lemma released_app (r : resource) (a b : list event) :
  released r (a ++ b) = (released r a + released r b)%nat.
Proof. apply count_occ_app. Qed.

(** Complete rounds release what they acquire, and no resource twice. *)
Lemma rounds_balanced (r : resource) (n k : nat) (path : string) :
  acquired r (rounds n k path) = released r (rounds n k path)
  /\ acquired r (rounds n k path)
     = if (Nat.leb n (res_id r) && Nat.ltb (res_id r) (n + k))%bool
       then 1%nat else 0%nat.
Proof.
  revert n. induction k as [|k IH]; intros n.
  - cbn [rounds]. split; [reflexivity|].
    destruct (Nat.leb n (res_id r) && Nat.ltb (res_id r) (n + 0))%bool eqn:E;
      [bool_to_prop; lia | reflexivity].
  - cbn [rounds]. destruct (IH (S n)) as [IH1 IH2].
    rewrite !acquired_app, !released_app, acquired_acquisitions,
      released_acquisitions, acquired_releases, released_releases.
    split; [lia|]. rewrite IH2.
    destruct (Nat.eqb (res_id r) n) eqn:E1;
      destruct (Nat.leb (S n) (res_id r) && Nat.ltb (res_id r) (S n + k))%bool
        eqn:E2;
      destruct (Nat.leb n (res_id r) && Nat.ltb (res_id r) (n + S k))%bool
        eqn:E3;
      try reflexivity; bool_to_prop; lia.
Qed.

(** X12. On an archive that has the member, where [ZipFile.open] of the
    member succeeds (it is not encrypted, its compression is supported and
    its local header is sound), whatever sequence of [read],
    [readline], [readlines], [seek], [tell], iteration and [close] is made on
    a reader, the storage sees complete rounds on handles numbered one after
    the other (acquire handle, index and member stream; release them in
    reverse order), followed by the acquisitions of one more handle exactly
    when the reader is left open.  So no resource is acquired twice, none is
    closed that was not acquired, and a reader that is not open holds
    nothing. *)
Theorem reader_rounds (zef : ZipExtractedFile.t) (fl : list ZipInfo)
    (info : ZipInfo) (w : World) (cs : list reader_call) :
  ObjectVersion.storage (PreviewFile.file (ZipExtractedFile.zip_fileobj zef))
    = Stored (Central fl) ->
  name_to_info fl !! ZipExtractedFile.zip_path zef = Some info ->
  zi_open_error info = None ->
  let st := run_calls cs (ZipExtractedFile_open zef, w) in
  let p := ZipExtractedFile.zip_path zef in
  exists k evs,
    log (snd st) = (log w ++ evs)%list
    /\ evs = (rounds (next_id w) k p
                ++ if ZipFileStream._opened (fst st)
                   then acquisitions (next_id w + k) p else [])%list
    /\ (forall r, (released r evs <= acquired r evs <= 1)%nat)
    /\ (ZipFileStream._opened (fst st) = false ->
        forall r, released r evs = acquired r evs).
Proof.
  intros Hst Hlk Herr st p.
  assert (H0 : reader_inv zef fl (next_id w) (log w) 0
                 (ZipExtractedFile_open zef, w)).
  { unfold reader_inv. cbn. rewrite app_nil_r. auto. }
  destruct (reader_inv_calls zef fl info Hst Hlk Herr (next_id w) (log w) cs
              _ 0%nat H0) as (k & Hz & Hinv).
  fold st in Hinv. fold p in Hinv.
  exists k. eexists. split; [|split; [reflexivity|]].
  - destruct (ZipFileStream._opened (fst st)).
    + now destruct Hinv as (-> & _).
    + destruct Hinv as (-> & _). now rewrite app_nil_r.
  - split.
    + intros r. destruct (rounds_balanced r (next_id w) k p) as [Hb Hc].
      rewrite acquired_app, released_app, <- Hb, Hc.
      destruct (ZipFileStream._opened (fst st)).
      * rewrite acquired_acquisitions, released_acquisitions.
        destruct (Nat.leb (next_id w) (res_id r)
                  && Nat.ltb (res_id r) (next_id w + k))%bool eqn:E1;
          destruct (Nat.eqb (res_id r) (next_id w + k)) eqn:E2;
          cbv iota; bool_to_prop; lia.
      * change (released r []) with 0%nat. change (acquired r []) with 0%nat.
        destruct (Nat.leb (next_id w) (res_id r)
                  && Nat.ltb (res_id r) (next_id w + k))%bool;
          cbv iota; lia.
    + intros Ho r. rewrite Ho, app_nil_r.
      symmetry. apply rounds_balanced.
Qed.

Lemma reader_rounds_witness :
  exists k evs,
    log (snd (run_calls [Trigger (Tread 2); Close; Trigger Ttell; Close]
                (ZipExtractedFile_open sample_zef, world0)))
    = ([] ++ evs)%list
    /\ evs = (rounds 0 k "folder/image.png"
                ++ if ZipFileStream._opened
                        (fst (run_calls
                                [Trigger (Tread 2); Close; Trigger Ttell; Close]
                                (ZipExtractedFile_open sample_zef, world0)))
                   then acquisitions (0 + k) "folder/image.png" else [])%list
    /\ (forall r, (released r evs <= acquired r evs <= 1)%nat)
    /\ (ZipFileStream._opened
          (fst (run_calls [Trigger (Tread 2); Close; Trigger Ttell; Close]
                  (ZipExtractedFile_open sample_zef, world0))) = false ->
        forall r, released r evs = acquired r evs).
Proof.
  exact (reader_rounds sample_zef [sample_png] sample_png world0
           [Trigger (Tread 2); Close; Trigger Ttell; Close]
           eq_refl eq_refl eq_refl).
Defined.

(** ** The preview view *)

(** The loop walks past plugins that decline or fail, logging one warning
    for each that failed. *)
Lemma try_plugins_skip (before rest : list Plugin) (f : VirtualFile) (a : App) :
  Forall (fun q => declines q f \/ fails q f) before ->
  try_plugins (before ++ rest) f a
  = try_plugins rest f
      {| app_world := app_world a;
         app_warnings := app_warnings a ++ failure_warnings before f |}.
Proof.
  intros H. revert a. induction H as [|q before Hq _ IH]; intros a.
  - unfold failure_warnings. cbn. rewrite app_nil_r. now destruct a.
  - rewrite <- app_comm_cons. cbn [try_plugins]. run.
    destruct Hq as [Hd|(Hc & e & He & Hex)].
    + unfold declines in Hd. rewrite Hd. rewrite IH.
      unfold failure_warnings, accepts. cbn [List.filter]. now rewrite Hd.
    + rewrite Hc, He, Hex. unfold logger_warning. run. rewrite IH.
      cbn [app_world app_warnings].
      unfold failure_warnings, accepts. cbn [List.filter]. rewrite Hc.
      cbn [length List.repeat]. rewrite <- app_assoc. reflexivity.
Qed.

Section PreviewProperties.

Variable record_file_factory :
  PID -> RecordT -> option string -> option ObjectVersion.t.
Variable declared_previewer : VirtualFile -> option string.
Variable iter_previewers : option (list string) -> list Plugin.
Variable default_preview : VirtualFile -> Res string.

(** The view once the factory has returned a file. *)
Lemma preview_after_factory (request : Request) (pid : PID) (record : RecordT)
    (a : App) (fileobj : ObjectVersion.t) (vf : VirtualFile) (w' : World) :
  record_file_factory pid record (preview_filename request) = Some fileobj ->
  create_preview_file pid record fileobj (args request !! "zip_path")
    (app_world a) = (Ok vf, w') ->
  preview record_file_factory declared_previewer iter_previewers
    default_preview request pid record a
  = match try_plugins
            (iter_previewers
               (preview_selection declared_previewer
                  (args request !! "zip_path") vf))
            vf {| app_world := w'; app_warnings := app_warnings a |} with
    | (Ok (Some v), a') => (Ok v, a')
    | (Ok None, a') => (default_preview vf, a')
    | (Raise e, a') => (Raise e, a')
    end.
Proof.
  intros Hf Hc. unfold preview. rewrite Hf. unfold liftApp. run. rewrite Hc.
  destruct (try_plugins _ vf _) as [[[v|]|e] a']; reflexivity.
Qed.

End PreviewProperties.

(** X13. The preview is the rendering of the first plugin, in the order of
    [iter_previewers], that accepts the file and renders it without an
    [Exception]; plugins before it that decline are passed over silently, and
    each one that accepted and failed costs one "Preview failed" warning and
    nothing else. *)
Theorem preview_first_working_plugin
    (record_file_factory :
       PID -> RecordT -> option string -> option ObjectVersion.t)
    (declared_previewer : VirtualFile -> option string)
    (iter_previewers : option (list string) -> list Plugin)
    (default_preview : VirtualFile -> Res string)
    (request : Request) (pid : PID) (record : RecordT) (a : App)
    (fileobj : ObjectVersion.t) (vf : VirtualFile) (w' : World)
    (before after : list Plugin) (p : Plugin) (v : string) :
  record_file_factory pid record (preview_filename request) = Some fileobj ->
  create_preview_file pid record fileobj (args request !! "zip_path")
    (app_world a) = (Ok vf, w') ->
  iter_previewers
    (preview_selection declared_previewer (args request !! "zip_path") vf)
  = (before ++ p :: after)%list ->
  Forall (fun q => declines q vf \/ fails q vf) before ->
  can_preview p vf = Ok true ->
  plugin_preview p vf = Ok v ->
  preview record_file_factory declared_previewer iter_previewers
    default_preview request pid record a
  = (Ok v, {| app_world := w';
              app_warnings := app_warnings a ++ failure_warnings before vf |}).
Proof.
  intros Hf Hc Hlist Hbefore Hcan Hprev.
  rewrite (preview_after_factory _ _ _ _ request pid record a fileobj vf w'
             Hf Hc).
  rewrite Hlist, (try_plugins_skip before (p :: after) vf _ Hbefore).
  cbn [try_plugins app_world app_warnings]. run. rewrite Hcan, Hprev.
  reflexivity.
Qed.


Lemma preview_first_working_plugin_witness :
  preview (always sample_archive) (fun _ => None)
    (fun _ => [plugin_declining; plugin_failing; plugin_images])
    (fun _ => Ok "default")
    (request_for "Archive.ZIP" "folder/image.png") sample_pid "rec" app0
  = (Ok "<img image.png>",
     {| app_world := world_after_probe "folder/image.png";
        app_warnings :=
          ["Preview failed for data/Archive.ZIP, in recid:123"] |}).
Proof.
  apply (preview_first_working_plugin (always sample_archive) (fun _ => None)
           (fun _ => [plugin_declining; plugin_failing; plugin_images])
           (fun _ => Ok "default")
           (request_for "Archive.ZIP" "folder/image.png") sample_pid "rec"
           app0 sample_archive (Extracted sample_zef)
           (world_after_probe "folder/image.png")
           [plugin_declining; plugin_failing] [] plugin_images
           "<img image.png>").
  - reflexivity.
  - reflexivity.
  - reflexivity.
  - constructor; [left; reflexivity|].
    constructor; [|constructor].
    right. split; [reflexivity|].
    exists (RuntimeError "cannot render"). now split.
  - reflexivity.
  - reflexivity.
Defined.


(** X15. When the factory refuses the file, the preview view asks no plugin
    and logs nothing: a name that is not a ZIP gives status 400 with the text
    of the [ValueError], a missing member gives status 404 with the text of
    the [FileNotFoundError], and anything else the factory raises is not an
    [Exception] and passes through; the branch that answers 500 is never
    taken. *)
Theorem preview_factory_errors
    (record_file_factory :
       PID -> RecordT -> option string -> option ObjectVersion.t)
    (declared_previewer : VirtualFile -> option string)
    (iter_previewers : option (list string) -> list Plugin)
    (default_preview : VirtualFile -> Res string)
    (request : Request) (pid : PID) (record : RecordT) (a : App)
    (fileobj : ObjectVersion.t) (e : exn) (w' : World) :
  record_file_factory pid record (preview_filename request) = Some fileobj ->
  create_preview_file pid record fileobj (args request !! "zip_path")
    (app_world a) = (Raise e, w') ->
  exists e',
    preview record_file_factory declared_previewer iter_previewers
      default_preview request pid record a
    = (Raise e', {| app_world := w'; app_warnings := app_warnings a |})
    /\ ((e' = HTTPException 400 "Container file must be a ZIP archive"
         /\ w' = app_world a)
        \/ (exists zp, args request !! "zip_path" = Some zp
              /\ e' = HTTPException 404
                        ("File '" ++ zp ++ "' not found in ZIP archive"))
        \/ (e' = e /\ is_Exception e = false)).
Proof.
  intros Hf Hc.
  unfold preview. rewrite Hf. unfold liftApp. run. rewrite Hc.
  destruct (create_outcome pid record fileobj (args request !! "zip_path")
              (app_world a)) as (r & w1 & evs & Hrun & _ & _ & Hr).
  rewrite Hc in Hrun. injection Hrun as <- <-.
  destruct Hr as (_ & [(-> & Hw)|[(zp & Hz & ->)|He]]).
  - eexists. split; [reflexivity|]. left. now split.
  - eexists. split; [reflexivity|]. right. left. eauto.
  - destruct e; try discriminate He. eexists. split; [reflexivity|].
    right. right. now split.
Qed.

Lemma preview_factory_errors_witness :
  exists e',
    preview (always sample_notes) (fun _ => None)
      (fun _ => [plugin_images]) (fun _ => Ok "default")
      (request_for "notes.txt" "x") sample_pid "rec" app0
    = (Raise e', {| app_world := world0; app_warnings := [] |})
    /\ ((e' = HTTPException 400 "Container file must be a ZIP archive"
         /\ world0 = app_world app0)
        \/ (exists zp, args (request_for "notes.txt" "x") !! "zip_path"
                       = Some zp
              /\ e' = HTTPException 404
                        ("File '" ++ zp ++ "' not found in ZIP archive"))
        \/ (e' = ValueError "Container file must be a ZIP archive"
            /\ is_Exception
                 (ValueError "Container file must be a ZIP archive") = false)).
Proof.
  apply (preview_factory_errors (always sample_notes) (fun _ => None)
           (fun _ => [plugin_images]) (fun _ => Ok "default")
           (request_for "notes.txt" "x") sample_pid "rec" app0 sample_notes
           (ValueError "Container file must be a ZIP archive") world0).
  - reflexivity.
  - reflexivity.
Defined.

(** ** Reading through the reader *)



